(** * Presentation explainer: upload, worker and status pipeline

    A shallow embedding of the Python sources

      - [database/database.py]      (tables, module initialisation)
      - [server/main.py]            (upload, status, get_latest_upload)
      - [explainer/explainer.py]    (worker loop)
      - [explainer/presentation/my_presentation.py], [my_slide.py]
      - [client/client.py]          (SystemClient.upload)

    and of what the specification claims about them.

    Modelling choices.
      - Text is [string], its characters being code points below 256.
      - A Python exception is [Raised], or [None] where a single call can
        fail; the one unbounded loop of the sources (the retry loop of
        [MySlide.generate_explanation]) takes fuel and is [Diverged] when
        the fuel runs out.
      - The database is two lists of rows in table order; the session's
        queries and commits are functions on them.
      - The file system is a finite map from POSIX paths to contents, paths
        being compared as written; folders exist and can be written to.
      - python-pptx, the completion API, the clock, [uuid4] and [json.load]
        on foreign bytes are parameters, collected in [World]; the state
        counts how often the clock, [uuid4] and the API were used.
      - The server's requests and the passes of the worker loop are atomic
        events on one shared state. *)

From stdpp Require Import base option list strings pretty sorting gmap.
From Stdlib Require Import Ascii ZArith Lia.

Local Open Scope string_scope.
Local Open Scope Z_scope.

(** ** Python built-ins used by the sources *)

Module Py.

(** [str.isspace] on one character (code points below 256). *)
Definition isspace (c : ascii) : bool :=
  let n := N_of_ascii c in
  ((9 <=? n) && (n <=? 13) || (28 <=? n) && (n <=? 32)
   || (n =? 133) || (n =? 160))%N.

Fixpoint lstrip (s : string) : string :=
  match s with
  | EmptyString => EmptyString
  | String c s' => if isspace c then lstrip s' else s
  end.

Definition is_empty (s : string) : bool :=
  match s with EmptyString => true | String _ _ => false end.

Fixpoint rstrip (s : string) : string :=
  match s with
  | EmptyString => EmptyString
  | String c s' =>
      let r := rstrip s' in
      if isspace c && is_empty r then EmptyString else String c r
  end.

(** [s.strip()] *)
Definition strip (s : string) : string := rstrip (lstrip s).

(** [s.split(sep)] for a one-character separator: never the empty list. *)
Fixpoint split (sep : ascii) (s : string) : list string :=
  match s with
  | EmptyString => [EmptyString]
  | String c s' =>
      if decide (c = sep) then EmptyString :: split sep s'
      else match split sep s' with
           | [] => [String c EmptyString]
           | piece :: pieces => String c piece :: pieces
           end
  end.

(** [l[i]] for a Python int [i]: negative indices count from the end,
    [None] is IndexError. *)
Definition getitem {A} (l : list A) (i : Z) : option A :=
  let n := Z.of_nat (length l) in
  if (0 <=? i) && (i <? n) then l !! Z.to_nat i
  else if (- n <=? i) && (i <? 0) then l !! Z.to_nat (n + i)
  else None.

Fixpoint startswith (p s : string) : bool :=
  match p, s with
  | EmptyString, _ => true
  | String a p', String b s' => if decide (a = b) then startswith p' s' else false
  | String _ _, EmptyString => false
  end.

(** [s.endswith(suffix)] *)
Definition endswith (s suffix : string) : bool :=
  startswith (String.rev suffix) (String.rev s).

(** [sub in s] *)
Fixpoint contains (sub s : string) : bool :=
  startswith sub s
  || match s with
     | EmptyString => false
     | String _ s' => contains sub s'
     end.

(** [str.lower] on one character (code points below 256). *)
Definition lower_char (c : ascii) : ascii :=
  let n := N_of_ascii c in
  if ((65 <=? n) && (n <=? 90)
      || (192 <=? n) && (n <=? 222) && negb (n =? 215))%N
  then ascii_of_N (n + 32) else c.

Fixpoint lower (s : string) : string :=
  match s with
  | EmptyString => EmptyString
  | String c s' => String (lower_char c) (lower s')
  end.

Fixpoint drop (n : nat) (s : string) : string :=
  match n, s with
  | O, _ => s
  | S n', String _ s' => drop n' s'
  | S _, EmptyString => EmptyString
  end.

Fixpoint take (n : nat) (s : string) : string :=
  match n, s with
  | S n', String c s' => String c (take n' s')
  | _, _ => EmptyString
  end.

(** [s.rfind(c)]: the last index of [c], or -1. *)
Fixpoint rfind_from (c : ascii) (s : string) (i found : Z) : Z :=
  match s with
  | EmptyString => found
  | String a s' => rfind_from c s' (i + 1) (if decide (a = c) then i else found)
  end.

Definition rfind (c : ascii) (s : string) : Z := rfind_from c s 0 (-1).

(** [all(ch == c for ch in s)] *)
Fixpoint all_char (c : ascii) (s : string) : bool :=
  match s with
  | EmptyString => true
  | String a s' => if decide (a = c) then all_char c s' else false
  end.

(** [posixpath.join(a, b)] *)
Definition path_join (a b : string) : string :=
  if startswith "/" b then b
  else if is_empty a || endswith a "/" then a ++ b
  else a ++ "/" ++ b.

(** [posixpath.splitext(p)]: the extension starts at the last dot of the
    last path component, unless that component has only leading dots
    before it. *)
Definition splitext (p : string) : string * string :=
  let sepIndex := rfind "/" p in
  let dotIndex := rfind "." p in
  if sepIndex <? dotIndex then
    let filenameIndex := sepIndex + 1 in
    let lead := take (Z.to_nat (dotIndex - filenameIndex))
                     (drop (Z.to_nat filenameIndex) p) in
    if all_char "." lead then (p, EmptyString)
    else (take (Z.to_nat dotIndex) p, drop (Z.to_nat dotIndex) p)
  else (p, EmptyString).

(** A Python [dict] iterated in insertion order: [d[k] = v] replaces the
    value of an existing key in place and appends a new key at the end. *)
Fixpoint setitem {K V} `{EqDecision K} (d : list (K * V)) (k : K) (v : V)
  : list (K * V) :=
  match d with
  | [] => [(k, v)]
  | (k', v') :: d' =>
      if decide (k' = k) then (k, v) :: d' else (k', v') :: setitem d' k v
  end.

(** Truthiness of a [str]. *)
Definition truthy (s : string) : bool := negb (is_empty s).

End Py.

(** ** Outcomes of running Python code

    [Ok a] is a normal return, [Raised] an exception that reaches the caller,
    [Diverged] a loop that did not finish within the fuel it was given. *)

Inductive run (A : Type) : Type :=
| Ok (a : A)
| Raised
| Diverged.

Arguments Ok {A} a.
Arguments Raised {A}.
Arguments Diverged {A}.

#[global] Instance run_ret : MRet run := λ A a, Ok a.

#[global] Instance run_bind : MBind run := λ A B f m,
  match m with
  | Ok a => f a
  | Raised => Raised
  | Diverged => Diverged
  end.

#[global] Instance run_fmap : FMap run := λ A B f m,
  match m with
  | Ok a => Ok (f a)
  | Raised => Raised
  | Diverged => Diverged
  end.

(** An [option] whose [None] is a raised exception. *)
Definition or_raise {A} (o : option A) : run A :=
  match o with Some a => Ok a | None => Raised end.

(** ** JSON documents and the values [json.dump] is given *)

#[warnings="-register-all"] Inductive json : Type :=
| JNull
| JNum (n : Z)
| JStr (s : string)
| JArr (items : list json)
| JObj (members : list (string * json)).

(** The Python values the sources serialise.  A namedtuple is a tuple. *)
#[warnings="-register-all"] Inductive pyval : Type :=
| PyNone
| PyInt (n : Z)
| PyStr (s : string)
| PyList (items : list pyval)
| PyTuple (items : list pyval)
| PyDict (members : list (string * pyval)).

(** [json.dump]: lists and tuples (named or not) both become arrays. *)
Fixpoint json_dump (v : pyval) : json :=
  match v with
  | PyNone => JNull
  | PyInt n => JNum n
  | PyStr s => JStr s
  | PyList items => JArr (map json_dump items)
  | PyTuple items => JArr (map json_dump items)
  | PyDict members => JObj (map (fun kv => (fst kv, json_dump (snd kv))) members)
  end.

(** A file is either bytes somebody uploaded or the text [json.dump] wrote
    for a document. *)
Inductive file : Type :=
| Blob (data : string)
| JsonText (doc : json).

(** ** The slide deck as python-pptx presents it *)

Module pptx.

Record Run := { text : string }.
Record Paragraph := { runs : list Run }.
Record Shape := { has_text_frame : bool; paragraphs : list Paragraph }.
Record Slide := { shapes : list Shape }.
Record Presentation := { slides : list Slide }.

End pptx.

(** ** The world outside the program *)

(** What one call of [openai.Completion.create] does: it returns a response
    object (which, when empty, is falsy) or raises. *)
Inductive api_outcome : Type :=
| Returned (nonempty : bool) (choices : list string)
| AuthenticationError
| TimeoutError
| RateLimitError
| OtherException.

Record World := {
  (** [pptx.Presentation] on the content of a file; [None] when it raises *)
  Presentation : file → option pptx.Presentation;
  (** [openai.Completion.create]: what the n-th call made gets for a prompt *)
  Completion_create : nat → string → api_outcome;
  (** the n-th reading of [datetime.now()] *)
  datetime_now : nat → Z;
  (** the n-th value of [str(uuid.uuid4())] *)
  uuid4 : nat → string;
  (** [json.load] on bytes that [json.dump] did not write *)
  json_loads : string → option json
}.

(** ** utilities: constants of modules that are not part of the sources *)

Record Config := {
  UPLOAD_FOLDER : string;
  OUTPUT_FOLDER : string;
  FILE_FORMAT_INDEX : Z;
  PRESENTATION_FILE_EXTENSION : string;
  OUTPUT_FILE_EXTENSION : string
}.

(** Modelled from the spec: [utilities/dir_utils.py] and
    [utilities/file_utils.py] are missing.  Uploaded files are named
    [<uid>.<ext>], result documents [<uid>.json], the expected presentation
    extension is [.pptx] and [upload] documents the folder as 'uploads'. *)
Definition spec_config : Config := {|
  UPLOAD_FOLDER := "uploads";
  OUTPUT_FOLDER := "outputs";
  FILE_FORMAT_INDEX := 1;
  PRESENTATION_FILE_EXTENSION := ".pptx";
  OUTPUT_FILE_EXTENSION := ".json"
|}.

(** ** utilities/status_utils.py *)

Module status_utils.

Definition STATUS_not_found : string := "not found".
Definition STATUS_pending : string := "pending".
Definition STATUS_done : string := "done".

End status_utils.


(** Effects on the outside world that the sources do not store anywhere:
    how many API calls were made and which [time.sleep] calls happened. *)
Record Effects := {
  api_calls : nat;
  sleeps : list Z
}.

Definition called (e : Effects) : Effects :=
  {| api_calls := S (api_calls e); sleeps := sleeps e |}.

Definition time_sleep (seconds : Z) (e : Effects) : Effects :=
  {| api_calls := api_calls e; sleeps := sleeps e ++ [seconds] |}.

(** ** explainer/presentation/my_slide.py *)

Module my_slide.

Record MySlide := {
  slide_number : nat;
  text_boxes : list string
}.

Definition newline : string := String (ascii_of_nat 10) EmptyString.

Definition construct_prompt (self : MySlide) : string :=
  let prompt := "Slide " ++ pretty (slide_number self) ++ ":" in
  let prompt :=
    fold_left (fun prompt text_box => prompt ++ newline ++ text_box)
              (text_boxes self) prompt in
  prompt ++ newline ++ newline ++ "AI, please explain the slide.".

(** [response.choices[0].text.strip() if response and response.choices else ""] *)
Definition reply_of (choices : list string) : string :=
  match choices with
  | [] => EmptyString
  | choice :: _ => Py.strip choice
  end.

(** The [while not response] loop: one iteration per unit of fuel. *)
Fixpoint request_loop (fuel : nat) (w : World) (prompt : string) (e : Effects)
  : run (string * Effects) :=
  match fuel with
  | O => Diverged
  | S fuel' =>
      match Completion_create w (api_calls e) prompt with
      | Returned nonempty choices =>
          if nonempty then Ok (reply_of choices, called e)
          else request_loop fuel' w prompt (called e)
      | AuthenticationError => Ok (EmptyString, called e)
      | TimeoutError => Ok (EmptyString, called e)
      | RateLimitError => request_loop fuel' w prompt (time_sleep 60 (called e))
      | OtherException => Ok (EmptyString, called e)
      end
  end.

Definition generate_explanation (fuel : nat) (w : World) (self : MySlide)
  (e : Effects) : run (string * Effects) :=
  request_loop fuel w (construct_prompt self) e.

End my_slide.

(** ** explainer/presentation/my_presentation.py *)

Module my_presentation.

Import my_slide.

(** The namedtuple class [Explanations] that [explainer.main] creates. *)
Record Explanations := {
  slide_number : nat;
  explanation : string
}.

Record MyPresentation := {
  filepath : string;
  explanations : option (list Explanations);
  slides : list (nat * MySlide)
}.

(** [MyPresentation(filepath=...)] *)
Definition new (filepath : string) : MyPresentation :=
  {| filepath := filepath; explanations := None; slides := [] |}.

(** The comprehension of [parse]: the stripped text of every run of every
    paragraph of every shape that has a text frame, when not empty. *)
Definition slide_text_boxes (slide_obj : pptx.Slide) : list string :=
  flat_map (fun shape =>
    if pptx.has_text_frame shape then
      flat_map (fun paragraph =>
        flat_map (fun run =>
          if Py.truthy (Py.strip (pptx.text run))
          then [Py.strip (pptx.text run)] else [])
          (pptx.runs paragraph))
        (pptx.paragraphs shape)
    else [])
    (pptx.shapes slide_obj).

(** The [for slide_number, slide in enumerate(prs.slides, start=1)] loop;
    [rest] is what is left to enumerate. *)
Fixpoint parse_loop (prs : pptx.Presentation) (rest : list pptx.Slide)
  (slide_number : nat) (slides : list (nat * MySlide))
  : run (list (nat * MySlide)) :=
  match rest with
  | [] => Ok slides
  | slide :: rest' =>
      slide_obj ← or_raise (Py.getitem (pptx.slides prs) (Z.of_nat slide_number - 1));
      let slide_text_boxes := slide_text_boxes slide_obj in
      match slide_text_boxes with
      | [] => parse_loop prs rest' (S slide_number) slides
      | _ :: _ =>
          parse_loop prs rest' (S slide_number)
            (Py.setitem slides slide_number
               {| my_slide.slide_number := slide_number;
                  text_boxes := slide_text_boxes |})
      end
  end.

(** [Presentation(f"{self.filepath}")]: opening a path with no file raises. *)
Definition open_presentation (w : World) (files : gmap string file)
  (path : string) : option pptx.Presentation :=
  files !! path ≫= Presentation w.

Definition parse (w : World) (files : gmap string file) (self : MyPresentation)
  : run MyPresentation :=
  match open_presentation w files (filepath self) with
  | None => Ok self
  | Some prs =>
      slides ← parse_loop prs (pptx.slides prs) 1 (slides self);
      Ok {| filepath := filepath self;
            explanations := explanations self;
            slides := slides |}
  end.

End my_presentation.

(** ** database/database.py *)

Module database.

Record User := {
  User_id : nat;
  email : string
}.

Record Upload := {
  Upload_id : nat;
  uid : string;
  filename : string;
  upload_time : Z;
  finish_time : option Z;
  status : string;
  user_id : option nat
}.

Record Tables := {
  users : list User;
  uploads : list Upload
}.

(** [Base.metadata.drop_all(engine)] then [Base.metadata.create_all(engine)],
    run whenever the module is imported. *)
Definition drop_all (t : Tables) : Tables := {| users := []; uploads := [] |}.
Definition create_all (t : Tables) : Tables := t.
Definition module_init (t : Tables) : Tables := create_all (drop_all t).

(** The next value of an integer primary key. *)
Definition next_id (ids : list nat) : nat := S (foldr Nat.max 0%nat ids).

(** [session.query(User).filter_by(email=email).first()] *)
Definition user_by_email (t : Tables) (e : string) : option User :=
  List.find (fun u => bool_decide (email u = e)) (users t).

(** [session.query(Upload).filter_by(uid=uid).first()] *)
Definition upload_by_uid (t : Tables) (u : string) : option Upload :=
  List.find (fun up => bool_decide (uid up = u)) (uploads t).

(** [session.query(Upload).filter_by(status=...).all()] *)
Definition uploads_by_status (t : Tables) (st : string) : list Upload :=
  List.filter (fun up => bool_decide (status up = st)) (uploads t).

(** [filter_by(user=user, filename=filename)] *)
Definition uploads_of (t : Tables) (user : User) (fn : string) : list Upload :=
  List.filter (fun up => bool_decide (user_id up = Some (User_id user))
                         && bool_decide (filename up = fn)) (uploads t).

(** [order_by(desc(Upload.upload_time))]: a stable descending sort (rows with
    equal times keep their table order). *)
Fixpoint insert_desc (up : Upload) (sorted : list Upload) : list Upload :=
  match sorted with
  | [] => [up]
  | x :: rest =>
      if upload_time x <=? upload_time up then up :: sorted
      else x :: insert_desc up rest
  end.

Definition order_by_desc_upload_time (l : list Upload) : list Upload :=
  foldr insert_desc [] l.

(** [session.add(User(email=email))], flushed with the next commit. *)
Definition add_user (t : Tables) (e : string) : User * Tables :=
  let user := {| User_id := next_id (map User_id (users t)); email := e |} in
  (user, {| users := users t ++ [user]; uploads := uploads t |}).

(** [session.add(Upload(...)); session.commit()]: the [uid] column is
    unique, a second row with the same [uid] makes the commit fail. *)
Definition add_upload (t : Tables) (u fn : string) (now : Z)
  (user : option User) : option (Upload * Tables) :=
  match upload_by_uid t u with
  | Some _ => None
  | None =>
      let up := {| Upload_id := next_id (map Upload_id (uploads t));
                   uid := u; filename := fn; upload_time := now;
                   finish_time := None;
                   status := status_utils.STATUS_pending;
                   user_id := User_id <$> user |} in
      Some (up, {| users := users t; uploads := uploads t ++ [up] |})
  end.

(** The UPDATE that committing a changed [Upload] object issues. *)
Definition update_upload (t : Tables) (up : Upload) : Tables :=
  {| users := users t;
     uploads := map (fun x => if decide (Upload_id x = Upload_id up)
                              then up else x) (uploads t) |}.

End database.


(** ** The state shared by the processes *)

Record System := {
  tables : database.Tables;
  files : gmap string file;
  now_reads : nat;
  uuid_draws : nat;
  effects : Effects
}.

Definition with_tables (t : database.Tables) (s : System) : System :=
  {| tables := t; files := files s; now_reads := now_reads s;
     uuid_draws := uuid_draws s; effects := effects s |}.

Definition with_files (f : gmap string file) (s : System) : System :=
  {| tables := tables s; files := f; now_reads := now_reads s;
     uuid_draws := uuid_draws s; effects := effects s |}.

Definition with_effects (e : Effects) (s : System) : System :=
  {| tables := tables s; files := files s; now_reads := now_reads s;
     uuid_draws := uuid_draws s; effects := e |}.

(** [datetime.now()] *)
Definition read_now (w : World) (s : System) : Z * System :=
  (datetime_now w (now_reads s),
   {| tables := tables s; files := files s; now_reads := S (now_reads s);
      uuid_draws := uuid_draws s; effects := effects s |}).

(** [str(uuid.uuid4())] *)
Definition draw_uuid (w : World) (s : System) : string * System :=
  (uuid4 w (uuid_draws s),
   {| tables := tables s; files := files s; now_reads := now_reads s;
      uuid_draws := S (uuid_draws s); effects := effects s |}).

(** [os.path.isfile(path)] *)
Definition isfile (f : gmap string file) (path : string) : bool :=
  bool_decide (is_Some (f !! path)).

(** The name under which [os.listdir(folder)] shows a path, if it does. *)
Definition entry_name (folder path : string) : option string :=
  let prefix :=
    if Py.is_empty folder || Py.endswith folder "/" then folder
    else folder ++ "/" in
  if Py.startswith prefix path then
    let name := Py.drop (String.length prefix) path in
    if Py.is_empty name || Py.contains "/" name then None else Some name
  else None.

(** [os.listdir(folder)] *)
Definition listdir (folder : string) (f : gmap string file) : list string :=
  omap (entry_name folder) (map fst (map_to_list f)).

(** ** explainer/explainer.py *)

Module explainer.

Import my_slide my_presentation database.

(** The [for slide_number, slide in presentation.slides.items()] loop. *)
Fixpoint explain_slides (fuel : nat) (w : World) (items : list (nat * MySlide))
  (explanations : list Explanations) (e : Effects)
  : run (list Explanations * Effects) :=
  match items with
  | [] => Ok (explanations, e)
  | (slide_number, slide) :: items' =>
      '(explanation, e') ← generate_explanation fuel w slide e;
      let explanation_entry :=
        {| slide_number := slide_number; explanation := explanation |} in
      explain_slides fuel w items' (explanations ++ [explanation_entry]) e'
  end.

Definition main (fuel : nat) (w : World) (f : gmap string file)
  (pptxfile : string) (e : Effects) : run (MyPresentation * Effects) :=
  presentation ← parse w f (new pptxfile);
  '(explanations, e') ← explain_slides fuel w (slides presentation) [] e;
  Ok ({| filepath := filepath presentation;
         explanations := Some explanations;
         slides := slides presentation |}, e').

(** A namedtuple as the value [json.dump] sees. *)
Definition as_tuple (x : Explanations) : pyval :=
  PyTuple [PyInt (Z.of_nat (slide_number x)); PyStr (explanation x)].

Definition as_pyval (explanations : option (list Explanations)) : pyval :=
  match explanations with
  | None => PyNone
  | Some l => PyList (map as_tuple l)
  end.

(** Returns the output file path, or [None]. *)
Definition process_upload_file (cfg : Config) (fuel : nat) (w : World)
  (upload : Upload) (file_path : string) (s : System)
  : run (option string * System) :=
  if isfile (files s) file_path
     && bool_decide (Py.lower (snd (Py.splitext (filename upload)))
                     = PRESENTATION_FILE_EXTENSION cfg)
  then
    match main fuel w (files s) file_path (effects s) with
    | Diverged => Diverged
    | Raised => Ok (None, s)
    | Ok (presentation, e') =>
        let output_file_path :=
          Py.path_join (OUTPUT_FOLDER cfg)
                       (uid upload ++ OUTPUT_FILE_EXTENSION cfg) in
        let f' := <[output_file_path :=
                      JsonText (json_dump (as_pyval (explanations presentation)))]>
                    (files s) in
        Ok (Some output_file_path, with_files f' (with_effects e' s))
    end
  else Ok (None, s).

Definition update_upload_status (w : World) (upload : Upload) (s : System)
  : System :=
  let '(now, s) := read_now w s in
  let upload := {| Upload_id := Upload_id upload; uid := uid upload;
                   filename := filename upload;
                   upload_time := upload_time upload;
                   finish_time := Some now;
                   status := status_utils.STATUS_done;
                   user_id := user_id upload |} in
  with_tables (update_upload (tables s) upload) s.

(** The [for upload in pending_uploads] loop. *)
Fixpoint process_pending (cfg : Config) (fuel : nat) (w : World)
  (pending_uploads : list Upload) (s : System) : run System :=
  match pending_uploads with
  | [] => Ok s
  | upload :: rest =>
      let file_path := Py.path_join (UPLOAD_FOLDER cfg) (filename upload) in
      '(output_file_path, s) ← process_upload_file cfg fuel w upload file_path s;
      let s :=
        match output_file_path with
        | Some path => if Py.truthy path then update_upload_status w upload s else s
        | None => s
        end in
      process_pending cfg fuel w rest s
  end.

(** One pass of the [while True] loop. *)
Definition worker_pass (cfg : Config) (fuel : nat) (w : World) (s : System)
  : run System :=
  let pending_uploads :=
    uploads_by_status (tables s) status_utils.STATUS_pending in
  match pending_uploads with
  | [] => Ok (with_effects (time_sleep 10 (effects s)) s)
  | _ :: _ =>
      s ← process_pending cfg fuel w pending_uploads s;
      Ok (with_effects (time_sleep 10 (effects s)) s)
  end.

End explainer.

(** ** server/main.py *)

Module server.

Import database.

(** [uid + '.' + original_filename.split('.')[FILE_FORMAT_INDEX]];
    [None] is the IndexError of the subscript. *)
Definition generate_filename (cfg : Config) (uid original_filename : string)
  : option string :=
  piece ← Py.getitem (Py.split "." original_filename) (FILE_FORMAT_INDEX cfg);
  Some (uid ++ "." ++ piece).

(** A werkzeug [FileStorage]: the name the client sent and the content. *)
Record FileStorage := {
  file_filename : string;
  stream : string
}.

Definition save_file (cfg : Config) (file : FileStorage) (filename : string)
  (s : System) : System :=
  with_files (<[Py.path_join (UPLOAD_FOLDER cfg) filename := Blob (stream file)]>
                (files s)) s.

Definition find_files (files : list string) (uid : string) : list string :=
  List.filter (fun file => Py.contains uid file) files.

(** [json.load(open(os.path.join(OUTPUT_FOLDER, output_filename)))] *)
Definition get_explanation_from_file (cfg : Config) (w : World)
  (output_filename : string) (s : System) : run json :=
  match files s !! Py.path_join (OUTPUT_FOLDER cfg) output_filename with
  | None => Raised
  | Some (JsonText doc) => Ok doc
  | Some (Blob data) => or_raise (json_loads w data)
  end.

Definition create_user (e : string) (t : Tables) : User * Tables :=
  match user_by_email t e with
  | Some user => (user, t)
  | None => add_user t e
  end.

(** [None] when the commit fails. *)
Definition create_upload (w : World) (uid filename : string)
  (user : option User) (t : Tables) (s : System) : option (Upload * System) :=
  let '(now, s) := read_now w s in
  '(new_upload, t') ← add_upload t uid filename now user;
  Some (new_upload, with_tables t' s).

(** The request of the upload endpoint: [request.files.get('file')] and
    [request.form.get('email')]. *)
Record UploadRequest := {
  request_file : option FileStorage;
  form_email : option string
}.

(** [UidResponse] is [jsonify({'uid': uid})], [NoFileResponse] the answer
    to a request without a file, [ServerError] what the framework answers
    when the view raises. *)
Inductive UploadResponse : Type :=
| UidResponse (uid : string)
| NoFileResponse
| ServerError.

Definition upload (cfg : Config) (w : World) (request : UploadRequest)
  (s : System) : UploadResponse * System :=
  match request_file request with
  | None => (NoFileResponse, s)
  | Some file =>
      let '(uid, s) := draw_uuid w s in
      match generate_filename cfg uid (file_filename file) with
      | None => (ServerError, s)
      | Some filename =>
          let s := save_file cfg file filename s in
          let '(user, t) :=
            match form_email request with
            | Some e => let '(user, t) := create_user e (tables s) in (Some user, t)
            | None => (None, tables s)
            end in
          match create_upload w uid (file_filename file) user t s with
          | None => (ServerError, snd (read_now w s))
          | Some (_, s) => (UidResponse uid, s)
          end
      end
  end.

(** The dictionary [prepare_response] builds.  Times stand for their
    [strftime(TIME_FORMAT)] text; [finish_time] is a key only when set. *)
Record Response := {
  r_status : option string;
  r_filename : string;
  r_timestamp : Z;
  r_explanation : json;
  r_finish_time : option Z
}.

Definition prepare_response (cfg : Config) (w : World) (upload : option Upload)
  (s : System) : run Response * System :=
  let '(timestamp, s) := read_now w s in
  let explanation := JStr EmptyString in
  match upload with
  | None =>
      (Ok {| r_status := None; r_filename := EmptyString;
             r_timestamp := timestamp; r_explanation := explanation;
             r_finish_time := None |}, s)
  | Some upload =>
      let found :=
        if bool_decide (status upload = "done") then
          match find_files (listdir (OUTPUT_FOLDER cfg) (files s)) (uid upload) with
          | [] => Ok explanation
          | output_file :: _ => get_explanation_from_file cfg w output_file s
          end
        else Ok explanation in
      (explanation ← found;
       Ok {| r_status := Some (status upload); r_filename := filename upload;
             r_timestamp := upload_time upload; r_explanation := explanation;
             r_finish_time := finish_time upload |}, s)
  end.

Inductive StatusResponse : Type :=
| NotFound
| Found (response : Response).

(** The status endpoint, [GET /status/<uid>]. *)
Definition status (cfg : Config) (w : World) (uid : string) (s : System)
  : run StatusResponse * System :=
  match upload_by_uid (tables s) uid with
  | None => (Ok NotFound, s)
  | Some upload =>
      let '(response, s) := prepare_response cfg w (Some upload) s in
      (Found <$> response, s)
  end.

(** [request.args.get(...)] is [None] for an absent parameter; no stored
    email or filename is NULL, so a [None] matches no row. *)
Definition get_latest_upload (cfg : Config) (w : World)
  (filename email : option string) (s : System)
  : run StatusResponse * System :=
  match email ≫= user_by_email (tables s) with
  | None => (Ok NotFound, s)
  | Some user =>
      let matching :=
        match filename with
        | Some fn => uploads_of (tables s) user fn
        | None => []
        end in
      match head (order_by_desc_upload_time matching) with
      | None => (Ok NotFound, s)
      | Some latest_upload =>
          let '(response, s) := prepare_response cfg w (Some latest_upload) s in
          (Found <$> response, s)
      end
  end.

End server.

(** ** client/client.py *)

Module client.

Definition is_valid_filepath (file_path : option string) : bool :=
  negb (match file_path with
        | None => true
        | Some p => negb (Py.endswith p ".pptx")
        end).

(** [os.path.basename], the name [requests] sends for an open file. *)
Definition basename (p : string) : string :=
  Py.drop (Z.to_nat (Py.rfind "/" p + 1)) p.

(** [SystemClient.upload]: [Ok None] is the local rejection, [Raised] the
    exception for a response other than 200 or for a file that cannot be
    opened.  [disk] is the client's own file system. *)
Definition upload (cfg : Config) (w : World) (disk : gmap string string)
  (file_path email : option string) (s : System) : run (option string) * System :=
  if negb (is_valid_filepath file_path) then (Ok None, s)
  else
    match file_path ≫= (fun p => (fun data => (p, data)) <$> disk !! p) with
    | None => (Raised, s)
    | Some (p, data) =>
        let files := {| server.file_filename := basename p;
                        server.stream := data |} in
        let data :=
          match email with
          | Some e => if Py.truthy e then Some e else None
          | None => None
          end in
        let '(response, s) :=
          server.upload cfg w {| server.request_file := Some files;
                                 server.form_email := data |} s in
        match response with
        | server.UidResponse uid => (Ok (Some uid), s)
        | _ => (Raised, s)
        end
    end.

End client.

(** ** The core operations as events on the shared state *)

Inductive event : Type :=
| StartServer
| StartWorker
| UploadEvent (request : server.UploadRequest)
| StatusEvent (uid : string)
| LatestUploadEvent (filename email : option string)
| WorkerPassEvent (fuel : nat).

(** Starting either process imports [database.database]. *)
Definition start_process (s : System) : System :=
  with_tables (database.module_init (tables s)) s.

Definition step (cfg : Config) (w : World) (ev : event) (s : System)
  : run System :=
  match ev with
  | StartServer => Ok (start_process s)
  | StartWorker => Ok (start_process s)
  | UploadEvent request => Ok (snd (server.upload cfg w request s))
  | StatusEvent uid => Ok (snd (server.status cfg w uid s))
  | LatestUploadEvent filename email =>
      Ok (snd (server.get_latest_upload cfg w filename email s))
  | WorkerPassEvent fuel => explainer.worker_pass cfg fuel w s
  end.

Fixpoint steps (cfg : Config) (w : World) (evs : list event) (s : System)
  : run System :=
  match evs with
  | [] => Ok s
  | ev :: evs' => s' ← step cfg w ev s; steps cfg w evs' s'
  end.

Definition is_start (ev : event) : bool :=
  match ev with
  | StartServer | StartWorker => true
  | _ => false
  end.

(** The system before anything ran: some files, no tables yet. *)
Definition boot (f : gmap string file) : System :=
  {| tables := {| database.users := []; database.uploads := [] |};
     files := f; now_reads := 0; uuid_draws := 0;
     effects := {| api_calls := 0; sleeps := [] |} |}.

(** States the system can be in. *)
Inductive reachable (cfg : Config) (w : World) : System → Prop :=
| reachable_boot f : reachable cfg w (boot f)
| reachable_step s ev s' :
    reachable cfg w s → step cfg w ev s = Ok s' → reachable cfg w s'.

(** ** Concrete data for the examples *)

Module demo.

Definition shape (texts : list string) : pptx.Shape :=
  {| pptx.has_text_frame := true;
     pptx.paragraphs := [{| pptx.runs := map pptx.Build_Run texts |}] |}.

Definition picture : pptx.Shape :=
  {| pptx.has_text_frame := false; pptx.paragraphs := [] |}.

(** Four slides: text, a picture only, blank runs only, text. *)
Definition deck : pptx.Presentation :=
  {| pptx.slides :=
       [ {| pptx.shapes := [shape ["  Title "; ""]; picture; shape ["body"]] |};
         {| pptx.shapes := [picture] |};
         {| pptx.shapes := [shape ["   "; ""]] |};
         {| pptx.shapes := [shape ["The end"]] |} ] |}.

(** The bytes ["PPTX"] open as [deck], nothing else opens; the second API
    call is rate limited, the others answer. *)
Definition world : World :=
  {| Presentation := fun f =>
       match f with
       | Blob data => if bool_decide (data = "PPTX") then Some deck else None
       | JsonText _ => None
       end;
     Completion_create := fun n prompt =>
       if bool_decide (n = 1%nat) then RateLimitError
       else Returned true [" about: " ++ Py.take 7 prompt ++ " "];
     datetime_now := fun n => 1000 + Z.of_nat n;
     uuid4 := fun n => "uid" ++ pretty n;
     json_loads := fun _ => None |}.

Definition upload_of (name data : string) : event :=
  UploadEvent {| server.request_file :=
                   Some {| server.file_filename := name; server.stream := data |};
                 server.form_email := Some "naruto@gmail.com" |}.

(** The upload request whose only file is called [name]. *)
Definition request_of (name data : string) : server.UploadRequest :=
  {| server.request_file :=
       Some {| server.file_filename := name; server.stream := data |};
     server.form_email := None |}.



(** Two uploads of the same deck by the same user. *)
Definition two_uploads : System :=
  match steps spec_config world
          [StartServer; upload_of "deck.pptx" "PPTX"; upload_of "deck.pptx" "PPTX"]
          (boot ∅) with
  | Ok s => s
  | _ => boot ∅
  end.

(** A second upload named after the first one's stored file, so that the
    worker finds a file for it. *)
Definition findable_upload : System :=
  match steps spec_config world
          [StartServer; upload_of "a.pptx" "PPTX"; upload_of "uid0.pptx" "PPTX"]
          (boot ∅) with
  | Ok s => s
  | _ => boot ∅
  end.

Definition findable_job : database.Upload :=
  {| database.Upload_id := 2; database.uid := "uid1";
     database.filename := "uid0.pptx"; database.upload_time := 1001;
     database.finish_time := None; database.status := "pending";
     database.user_id := Some 1%nat |}.

(** The same after one pass of the worker. *)
Definition processed : System :=
  match explainer.worker_pass spec_config 5 world findable_upload with
  | Ok s => s
  | _ => boot ∅
  end.

(** A world like [world] in which every API call fails to authenticate. *)
Definition auth_world : World :=
  {| Presentation := Presentation world;
     Completion_create := fun _ _ => AuthenticationError;
     datetime_now := datetime_now world;
     uuid4 := uuid4 world;
     json_loads := json_loads world |}.

End demo.

(** ** The slide extractor in the words of its description

    These definitions follow the description of the extractor, not the
    code; the theorems below compare them with [my_presentation.parse]. *)

Module extractor_spec.

(** A string that is empty once trimmed: nothing but white space. *)
Fixpoint blank (s : string) : bool :=
  match s with
  | EmptyString => true
  | String c s' => Py.isspace c && blank s'
  end.

(** The run texts of all paragraphs of all text-bearing shapes, in
    shape, paragraph and run order. *)
Definition run_texts (slide : pptx.Slide) : list string :=
  concat (map (fun shape =>
                 concat (map (fun paragraph => map pptx.text (pptx.runs paragraph))
                             (pptx.paragraphs shape)))
              (List.filter pptx.has_text_frame (pptx.shapes slide))).

(** Each trimmed, the empty ones dropped. *)
Definition slide_text (slide : pptx.Slide) : list string :=
  List.filter (fun s => negb (Py.is_empty s)) (map Py.strip (run_texts slide)).

(** A slide that contains a non-empty text run. *)
Definition has_text (slide : pptx.Slide) : bool :=
  existsb (fun s => negb (blank s)) (run_texts slide).

(** The entries for the slides from position [pos] on. *)
Fixpoint entries_from (pos : nat) (slides : list pptx.Slide)
  : list (nat * my_slide.MySlide) :=
  match slides with
  | [] => []
  | slide :: rest =>
      (if has_text slide
       then [(pos, {| my_slide.slide_number := pos;
                      my_slide.text_boxes := slide_text slide |})]
       else [])
      ++ entries_from (S pos) rest
  end.

Definition entries (prs : pptx.Presentation) : list (nat * my_slide.MySlide) :=
  entries_from 1 (pptx.slides prs).

(** K, the number of slides without text. *)
Definition textless (prs : pptx.Presentation) : nat :=
  length (List.filter (fun slide => negb (has_text slide)) (pptx.slides prs)).

End extractor_spec.

(** ** Vocabulary of the claims *)

(** The failures after which [generate_explanation] gives up: an
    authentication failure, a timeout, or any other error of the call. *)
Definition terminal_failure (o : api_outcome) : bool :=
  match o with
  | AuthenticationError | TimeoutError | OtherException => true
  | Returned _ _ | RateLimitError => false
  end.

(** A job of [user] that was uploaded under the name [fn]. *)
Definition job_of (user : database.User) (fn : string) (job : database.Upload)
  : Prop :=
  database.user_id job = Some (database.User_id user)
  ∧ database.filename job = fn.

(** A [{slide_number, explanation}] object. *)
Definition is_explanation_object (j : json) : Prop :=
  ∃ n e, j = JObj [("slide_number", JNum n); ("explanation", JStr e)]
         ∨ j = JObj [("explanation", JStr e); ("slide_number", JNum n)].

(** The array [json.dump] writes for one [Explanations] namedtuple. *)
Definition explanation_array (x : my_presentation.Explanations) : json :=
  JArr [JNum (Z.of_nat (my_presentation.slide_number x));
        JStr (my_presentation.explanation x)].

(** Two rows that are the same job: everything but status and finish time. *)
Definition same_job (a b : database.Upload) : Prop :=
  database.Upload_id a = database.Upload_id b
  ∧ database.uid a = database.uid b
  ∧ database.filename a = database.filename b
  ∧ database.upload_time a = database.upload_time b
  ∧ database.user_id a = database.user_id b.

(** The row [update_upload_status] commits for [upload] at time [now]. *)
Definition mark_done (now : Z) (upload : database.Upload) : database.Upload :=
  {| database.Upload_id := database.Upload_id upload;
     database.uid := database.uid upload;
     database.filename := database.filename upload;
     database.upload_time := database.upload_time upload;
     database.finish_time := Some now;
     database.status := status_utils.STATUS_done;
     database.user_id := database.user_id upload |}.

(** What can happen to a row between clock readings [n] and [n']: nothing,
    or a pending row is marked done at one of these readings. *)
Definition advance (w : World) (n n' : nat) (x x' : database.Upload) : Prop :=
  x' = x
  ∨ (database.status x = status_utils.STATUS_pending
     ∧ ∃ j, (n ≤ j < n')%nat ∧ x' = mark_done (datetime_now w j) x).

(** A row as the sources write it: created pending at some clock reading,
    and if done, finished at a later reading. *)
Definition row_ok (w : World) (n : nat) (x : database.Upload) : Prop :=
  ∃ i, (i < n)%nat
       ∧ database.upload_time x = datetime_now w i
       ∧ ((database.status x = status_utils.STATUS_pending
           ∧ database.finish_time x = None)
          ∨ (database.status x = status_utils.STATUS_done
             ∧ ∃ j, (i ≤ j < n)%nat
                    ∧ database.finish_time x = Some (datetime_now w j))).

(** The row [create_upload] inserts in state [s]: a pending job stamped
    with the current clock reading, under a new key and a new uid. *)
Definition created (w : World) (s : System) (new : database.Upload) : Prop :=
  database.upload_time new = datetime_now w (now_reads s)
  ∧ database.status new = status_utils.STATUS_pending
  ∧ database.finish_time new = None
  ∧ database.Upload_id new
    = database.next_id (map database.Upload_id (database.uploads (tables s)))
  ∧ database.upload_by_uid (tables s) (database.uid new) = None.

(** What a request or a worker pass does to the tables: users are only
    added, existing jobs stay in place and may be marked done, and at most
    one job is added. *)
Definition tables_grow (w : World) (s s' : System) : Prop :=
  (now_reads s ≤ now_reads s')%nat
  ∧ ∃ new_users olds added,
      database.users (tables s') = (database.users (tables s) ++ new_users)%list
      ∧ database.uploads (tables s') = (olds ++ added)%list
      ∧ Forall2 (advance w (now_reads s) (now_reads s'))
          (database.uploads (tables s)) olds
      ∧ (added = []
         ∨ ∃ new, added = [new] ∧ created w s new
                  ∧ now_reads s' = S (now_reads s)).

(** The invariant of the job table. *)
Definition table_ok (w : World) (s : System) : Prop :=
  NoDup (map database.Upload_id (database.uploads (tables s)))
  ∧ NoDup (map database.uid (database.uploads (tables s)))
  ∧ Forall (row_ok w (now_reads s)) (database.uploads (tables s)).







(** The effects after [n] rate-limited calls and one more call. *)
Definition after_retries (n : nat) (e : Effects) : Effects :=
  {| api_calls := S (api_calls e + n);
     sleeps := (sleeps e ++ repeat 60 n)%list |}.

(** ** The answers of the status endpoints on the wire *)

Module flask.

(** What [requests.get] hands to the client: the status code and, when the
    body is JSON, the value [response.json()] returns. *)
Record HttpResponse := {
  status_code : Z;
  body : option json
}.

(** [jsonify(response)] for the dictionary of [prepare_response].
    Modelled from the spec: [TIME_FORMAT] is missing; client and server
    share the pattern so that times make the round trip, and a time on the
    wire is written as its number. *)
Definition jsonify_response (r : server.Response) : json :=
  JObj ([("status", match server.r_status r with
                    | Some st => JStr st
                    | None => JNull
                    end);
         ("filename", JStr (server.r_filename r));
         ("timestamp", JNum (server.r_timestamp r));
         ("explanation", server.r_explanation r)]
        ++ match server.r_finish_time r with
           | Some t => [("finish_time", JNum t)]
           | None => []
           end).

(** [jsonify({'status': 'not found'})] or [jsonify(response)] *)
Definition jsonify (r : server.StatusResponse) : json :=
  match r with
  | server.NotFound => JObj [("status", JStr status_utils.STATUS_not_found)]
  | server.Found response => jsonify_response response
  end.

(** What the framework sends for a view: 200 with the JSON the view
    returned, 500 without JSON when the view raised. *)
Definition respond (r : run server.StatusResponse) : HttpResponse :=
  match r with
  | Ok answer => {| status_code := 200; body := Some (jsonify answer) |}
  | _ => {| status_code := 500; body := None |}
  end.

End flask.

(** Constants of [utilities/request_utils.py] and [client_utils.py], which
    are not part of the sources. *)
Record ClientUtils := {
  RETURN_ok : Z;
  RETURN_page_not_found : Z;
  PROCESS_DONE : string
}.

(** Modelled from the spec: the client consumes 200 as ok and 404 as
    identifier not found, and a job that is processed has status 'done'. *)
Definition spec_client_utils : ClientUtils :=
  {| RETURN_ok := 200; RETURN_page_not_found := 404; PROCESS_DONE := "done" |}.

(** ** client/client.py: the status requests *)

Module Status.

Record t := {
  status : json;
  filename : json;
  timestamp : Z;
  explanation : json
}.

(** [self.status == PROCESS_DONE]: only a string equals a string. *)
Definition is_done (cu : ClientUtils) (self : t) : bool :=
  match status self with
  | JStr st => bool_decide (st = PROCESS_DONE cu)
  | _ => false
  end.

End Status.

Module SystemClient.

(** [data[key]]: a missing key, or data that is no dictionary, raises. *)
Definition getitem (data : json) (key : string) : run json :=
  match data with
  | JObj members =>
      or_raise (snd <$> List.find (fun kv => bool_decide (kv.1 = key)) members)
  | _ => Raised
  end.

(** [datetime.strptime(text, TIME_FORMAT)] *)
Definition strptime (text : json) : run Z :=
  match text with
  | JNum t => Ok t
  | _ => Raised
  end.

Definition make_status_request (cu : ClientUtils) (response : flask.HttpResponse)
  : run json :=
  if decide (flask.status_code response = RETURN_page_not_found cu) then Raised
  else if decide (flask.status_code response ≠ RETURN_ok cu) then Raised
  else or_raise (flask.body response).

(** [SystemClient.status], given the response to its request. *)
Definition status (cu : ClientUtils) (response : flask.HttpResponse)
  : run Status.t :=
  data ← make_status_request cu response;
  timestamp ← getitem data "timestamp" ≫= strptime;
  st ← getitem data "status";
  fn ← getitem data "filename";
  ex ← getitem data "explanation";
  Ok {| Status.status := st; Status.filename := fn;
        Status.timestamp := timestamp; Status.explanation := ex |}.

(** [SystemClient.get_latest_upload], given the response to its request;
    [filename] is the argument as JSON, [now] the client's clock when it
    is read. *)
Definition get_latest_upload (cu : ClientUtils) (filename : json) (now : Z)
  (response : flask.HttpResponse) : run Status.t :=
  data ← make_status_request cu response;
  let timestamp :=
    match getitem data "timestamp" ≫= strptime with
    | Ok t => t
    | _ => now
    end in
  let explanation :=
    match getitem data "explanation" with
    | Ok ex => ex
    | _ => JStr EmptyString
    end in
  st ← getitem data "status";
  Ok {| Status.status := st; Status.filename := filename;
        Status.timestamp := timestamp; Status.explanation := explanation |}.

End SystemClient.

(** ** Vocabulary of the further properties *)

Definition first_char (s : string) : option ascii :=
  match s with
  | EmptyString => None
  | String c _ => Some c
  end.

Fixpoint last_char (s : string) : option ascii :=
  match s with
  | EmptyString => None
  | String c EmptyString => Some c
  | String _ s' => last_char s'
  end.

(** A string that is not empty and neither starts nor ends with white
    space. *)
Definition trimmed (s : string) : Prop :=
  s ≠ EmptyString
  ∧ (∀ c, first_char s = Some c → Py.isspace c = false)
  ∧ (∀ c, last_char s = Some c → Py.isspace c = false).

(** How often a character occurs in a string. *)
Fixpoint count_char (c : ascii) (s : string) : nat :=
  match s with
  | EmptyString => 0
  | String a s' => (if decide (a = c) then 1 else 0) + count_char c s'
  end.

(** [sep.join(pieces)] *)
Fixpoint join (sep : string) (pieces : list string) : string :=
  match pieces with
  | [] => EmptyString
  | [piece] => piece
  | piece :: rest => piece ++ sep ++ join sep rest
  end.

(** Two states with the same tables and the same files. *)
Definition same_store (s1 s2 : System) : Prop :=
  tables s1 = tables s2 ∧ files s1 = files s2.

(** The answer of the status endpoints for a pending job. *)
Definition pending_response (job : database.Upload) : server.Response :=
  {| server.r_status := Some "pending";
     server.r_filename := database.filename job;
     server.r_timestamp := database.upload_time job;
     server.r_explanation := JStr EmptyString;
     server.r_finish_time := None |}.

(** The path of a job's result document. *)
Definition document_path (cfg : Config) (job : database.Upload) : string :=
  Py.path_join (OUTPUT_FOLDER cfg)
               (database.uid job ++ OUTPUT_FILE_EXTENSION cfg).

(** Every job that is done has a file at the path of its result document. *)
Definition documents_exist (cfg : Config) (s : System) : Prop :=
  ∀ job, job ∈ database.uploads (tables s) → database.status job = "done" →
         is_Some (files s !! document_path cfg job).

(** No path that is a file in [s] is missing in [s']. *)
Definition files_kept (s s' : System) : Prop :=
  ∀ path, is_Some (files s !! path) → is_Some (files s' !! path).

(** The worker's test on a job before it processes it: there is a file at
    the path made of the job's file name, and the name has the
    presentation extension. *)
Definition worker_finds (cfg : Config) (s : System) (job : database.Upload)
  : bool :=
  isfile (files s) (Py.path_join (UPLOAD_FOLDER cfg) (database.filename job))
  && bool_decide (Py.lower (Py.splitext (database.filename job)).2
                  = PRESENTATION_FILE_EXTENSION cfg).

(** An API that neither signals a rate limit nor returns an empty response
    object: every call answers or fails for good. *)
Definition responsive (w : World) : Prop :=
  ∀ n prompt,
    match Completion_create w n prompt with
    | RateLimitError | Returned false _ => False
    | _ => True
    end.

(** What the [n]-th call contributes as explanation for a prompt. *)
Definition answer (w : World) (n : nat) (prompt : string) : string :=
  match Completion_create w n prompt with
  | Returned true choices => my_slide.reply_of choices
  | _ => EmptyString
  end.

(** The explanations of the slides [items] when the first of them is
    explained by call number [k] and each takes one call. *)
Fixpoint explained (w : World) (k : nat) (items : list (nat * my_slide.MySlide))
  : list my_presentation.Explanations :=
  match items with
  | [] => []
  | (n, slide) :: rest =>
      {| my_presentation.slide_number := n;
         my_presentation.explanation :=
           answer w k (my_slide.construct_prompt slide) |}
      :: explained w (S k) rest
  end.

(** The slides [parse] finds at a path. *)
Definition parsed_slides (w : World) (f : gmap string file) (path : string)
  : list (nat * my_slide.MySlide) :=
  match my_presentation.open_presentation w f path with
  | Some prs => extractor_spec.entries prs
  | None => []
  end.

(** No two user rows share a key or an email. *)
Definition users_ok (s : System) : Prop :=
  NoDup (map database.User_id (database.users (tables s)))
  ∧ NoDup (map database.email (database.users (tables s))).

(** Every job's uid is one of the values [uuid4] has given so far. *)
Definition uids_drawn (w : World) (s : System) : Prop :=
  ∀ job, job ∈ database.uploads (tables s) →
         ∃ i, (i < uuid_draws s)%nat ∧ database.uid job = uuid4 w i.


(** A clock that moves on between any two readings. *)
Definition strict_clock (w : World) : Prop :=
  ∀ i j, (i < j)%nat → datetime_now w i < datetime_now w j.

(** * Theorems *)

(** ** Strings *)

Lemma rstrip_empty_blank s :
  Py.is_empty (Py.rstrip s) = extractor_spec.blank s.
Proof.
  induction s as [|c s IH]; simpl; [done|].
  rewrite <- IH. destruct (Py.isspace c), (Py.is_empty (Py.rstrip s)); done.
Qed.

Lemma blank_lstrip s :
  extractor_spec.blank (Py.lstrip s) = extractor_spec.blank s.
Proof.
  induction s as [|c s IH]; simpl; [done|].
  destruct (Py.isspace c) eqn:Hc; simpl; [done|]. by rewrite Hc.
Qed.

Lemma strip_empty_blank s :
  Py.is_empty (Py.strip s) = extractor_spec.blank s.
Proof. unfold Py.strip. by rewrite rstrip_empty_blank, blank_lstrip. Qed.

(** ** The slide extractor *)

Section extractor.

Import my_slide my_presentation.

Lemma flat_map_concat_map {A B} (f : A → list B) (l : list A) :
  flat_map f l = concat (map f l).
Proof. induction l as [|a l IH]; simpl; [done|]. by rewrite IH. Qed.

Lemma flat_map_filter {A B} (p : A → bool) (f : A → list B) (l : list A) :
  flat_map (fun a => if p a then f a else []) l = flat_map f (List.filter p l).
Proof.
  induction l as [|a l IH]; simpl; [done|].
  destruct (p a); simpl; by rewrite IH.
Qed.

Lemma filter_map_flat_map {A B} (p : B → bool) (g : A → B) (l : list A) :
  flat_map (fun a => if p (g a) then [g a] else []) l = List.filter p (map g l).
Proof.
  induction l as [|a l IH]; simpl; [done|].
  destruct (p (g a)); simpl; by rewrite IH.
Qed.

Lemma filter_concat {A} (p : A → bool) (ll : list (list A)) :
  List.filter p (concat ll) = concat (map (List.filter p) ll).
Proof.
  induction ll as [|l ll IH]; simpl; [done|].
  by rewrite List.filter_app, IH.
Qed.

(** The comprehension of [parse] computes the described text list. *)
Lemma slide_text_boxes_spec slide :
  slide_text_boxes slide = extractor_spec.slide_text slide.
Proof.
  unfold slide_text_boxes, extractor_spec.slide_text, extractor_spec.run_texts.
  rewrite flat_map_filter, flat_map_concat_map.
  rewrite concat_map, filter_concat, !map_map. f_equal.
  apply map_ext; intros shape.
  rewrite flat_map_concat_map, concat_map, filter_concat, !map_map. f_equal.
  apply map_ext; intros paragraph.
  rewrite (filter_map_flat_map (fun s => Py.truthy s)
             (fun run => Py.strip (pptx.text run))).
  by rewrite map_map.
Qed.

End extractor.

Section extractor_entries.

Import my_slide my_presentation.

Lemma has_text_slide_text slide :
  extractor_spec.has_text slide = negb (bool_decide (extractor_spec.slide_text slide = [])).
Proof.
  unfold extractor_spec.has_text, extractor_spec.slide_text.
  induction (extractor_spec.run_texts slide) as [|s l IH]; simpl; [done|].
  rewrite strip_empty_blank.
  destruct (extractor_spec.blank s); simpl; [exact IH|done].
Qed.

Lemma setitem_fresh {V} (d : list (nat * V)) k v :
  Forall (fun kv => kv.1 ≠ k) d → Py.setitem d k v = (d ++ [(k, v)])%list.
Proof.
  induction 1 as [|[k' v'] d Hk _ IH]; simpl; [done|].
  simpl in Hk. rewrite decide_False by done. by rewrite IH.
Qed.

Lemma getitem_middle {A} (l1 : list A) x l2 :
  Py.getitem (l1 ++ x :: l2)%list (Z.of_nat (S (length l1)) - 1) = Some x.
Proof.
  unfold Py.getitem.
  replace (Z.of_nat (S (length l1)) - 1) with (Z.of_nat (length l1)) by lia.
  rewrite length_app; simpl.
  rewrite (proj2 (andb_true_iff _ _)) by (split; [apply Z.leb_le|apply Z.ltb_lt]; lia).
  rewrite Nat2Z.id. by rewrite list_lookup_middle.
Qed.

Lemma parse_loop_entries prs seen rest acc :
  pptx.slides prs = (seen ++ rest)%list →
  Forall (fun kv => (kv.1 ≤ length seen)%nat) acc →
  parse_loop prs rest (S (length seen)) acc
  = Ok (acc ++ extractor_spec.entries_from (S (length seen)) rest)%list.
Proof.
  revert seen acc. induction rest as [|slide rest IH]; intros seen acc Hprs Hacc.
  - simpl. by rewrite app_nil_r.
  - cbn [parse_loop extractor_spec.entries_from].
    rewrite Hprs, getitem_middle. cbn [or_raise mbind run_bind].
    assert (Hnext : pptx.slides prs = ((seen ++ [slide]) ++ rest)%list)
      by (by rewrite <- app_assoc).
    assert (Hlen : length (seen ++ [slide])%list = S (length seen))
      by (rewrite length_app; simpl; lia).
    rewrite has_text_slide_text, slide_text_boxes_spec.
    destruct (extractor_spec.slide_text slide) as [|t ts] eqn:Htext.
    + rewrite bool_decide_true by done. simpl.
      rewrite <- Hlen. apply IH; [done|].
      eapply Forall_impl; [exact Hacc|]. intros kv Hkv. simpl in *. lia.
    + rewrite bool_decide_false by done. simpl.
      rewrite setitem_fresh.
      2:{ eapply Forall_impl; [exact Hacc|]. intros kv Hkv. simpl in *. lia. }
      rewrite <- Hlen at 1 4. rewrite IH; [| done |].
      * by rewrite Hlen, <- app_assoc.
      * apply Forall_app. split.
        -- eapply Forall_impl; [exact Hacc|]. intros kv Hkv. simpl in *. lia.
        -- constructor; [simpl; lia|constructor].
Qed.

Lemma entries_from_length pos l :
  length (extractor_spec.entries_from pos l)
  = (length l - length (List.filter (fun s => negb (extractor_spec.has_text s)) l))%nat.
Proof.
  revert pos. induction l as [|slide l IH]; intros pos; simpl; [done|].
  rewrite length_app, IH.
  pose proof (List.filter_length_le (fun s => negb (extractor_spec.has_text s)) l).
  destruct (extractor_spec.has_text slide); simpl; lia.
Qed.

Lemma entries_from_elem pos l n slide_obj :
  (n, slide_obj) ∈ extractor_spec.entries_from pos l ↔
  ∃ i slide, l !! i = Some slide ∧ n = (pos + i)%nat
             ∧ extractor_spec.has_text slide = true
             ∧ slide_obj = {| my_slide.slide_number := n;
                              my_slide.text_boxes :=
                                extractor_spec.slide_text slide |}.
Proof.
  revert pos. induction l as [|slide l IH]; intros pos; simpl.
  - split; [by intros ?%elem_of_nil|]. by intros (i & s & ? & _).
  - rewrite elem_of_app, IH. split.
    + intros [Hhere|(i & s & Hi & -> & Ht & ->)].
      * destruct (extractor_spec.has_text slide) eqn:Ht;
          [|by apply elem_of_nil in Hhere].
        apply list_elem_of_singleton in Hhere. injection Hhere as -> ->.
        exists 0%nat, slide. split_and!; try done; try lia.
      * exists (S i), s. split_and!; try done; try lia; try (f_equal; lia).
    + intros ([|i] & s & Hi & -> & Ht & ->); simpl in Hi.
      * left. injection Hi as ->. rewrite Ht, Nat.add_0_r.
        by apply list_elem_of_singleton.
      * right. exists i, s. split_and!; try done; try lia; try (f_equal; lia).
Qed.

Lemma entries_from_lower pos l :
  Forall (fun n => (pos ≤ n)%nat) (map fst (extractor_spec.entries_from pos l)).
Proof.
  revert pos. induction l as [|slide l IH]; intros pos; simpl; [constructor|].
  rewrite map_app. apply Forall_app. split.
  - destruct (extractor_spec.has_text slide); repeat constructor.
  - eapply Forall_impl; [apply IH|]. intros; simpl in *; lia.
Qed.

Lemma entries_from_sorted pos l :
  StronglySorted lt (map fst (extractor_spec.entries_from pos l)).
Proof.
  revert pos. induction l as [|slide l IH]; intros pos; simpl; [constructor|].
  rewrite map_app.
  destruct (extractor_spec.has_text slide); simpl; [|apply IH].
  constructor; [apply IH|].
  eapply Forall_impl; [apply entries_from_lower|]. intros; simpl in *; lia.
Qed.

End extractor_entries.

(** C7. For a file that opens as a deck of N slides of which K contain no
    non-empty text run, [parse] returns exactly N - K entries, in strictly
    increasing order of slide number; the entries are exactly the slides
    with text, each under its position in the deck (counted from 1), and
    each entry's text list is the trimmed run texts of the text-bearing
    shapes in shape, paragraph and run order without the empty ones. *)
Theorem parse_yields_text_slides (w : World) (f : gmap string file)
  (path : string) (prs : pptx.Presentation) :
  my_presentation.open_presentation w f path = Some prs →
  ∃ entries,
    my_presentation.parse w f (my_presentation.new path)
    = Ok {| my_presentation.filepath := path;
            my_presentation.explanations := None;
            my_presentation.slides := entries |}
    ∧ length entries
      = (length (pptx.slides prs) - extractor_spec.textless prs)%nat
    ∧ StronglySorted lt (map fst entries)
    ∧ ∀ n slide_obj,
        (n, slide_obj) ∈ entries ↔
        ∃ slide, (1 ≤ n)%nat
                 ∧ pptx.slides prs !! (n - 1)%nat = Some slide
                 ∧ extractor_spec.has_text slide = true
                 ∧ slide_obj = {| my_slide.slide_number := n;
                                  my_slide.text_boxes :=
                                    extractor_spec.slide_text slide |}.
Proof.
  intros Hopen. exists (extractor_spec.entries prs).
  unfold my_presentation.parse, my_presentation.new; simpl. rewrite Hopen.
  pose proof (parse_loop_entries prs [] (pptx.slides prs) [] eq_refl
                (List.Forall_nil _)) as Hloop.
  simpl in Hloop. rewrite Hloop. simpl.
  split_and!.
  - done.
  - apply entries_from_length.
  - apply entries_from_sorted.
  - intros n slide_obj. split.
    + intros (i & slide & Hi & -> & Ht & ->)%entries_from_elem.
      exists slide. split_and!; [lia| |done|done].
      by replace (1 + i - 1)%nat with i by lia.
    + intros (slide & Hn & Hi & Ht & ->). apply entries_from_elem.
      exists (n - 1)%nat, slide. split_and!; [done|lia|done|done].
Qed.

Lemma parse_yields_text_slides_witness :
  ∃ entries,
    my_presentation.parse demo.world {["deck.pptx" := Blob "PPTX"]}
      (my_presentation.new "deck.pptx")
    = Ok {| my_presentation.filepath := "deck.pptx";
            my_presentation.explanations := None;
            my_presentation.slides := entries |}
    ∧ length entries = (4 - 2)%nat.
Proof.
  destruct (parse_yields_text_slides demo.world {["deck.pptx" := Blob "PPTX"]}
              "deck.pptx" demo.deck) as (entries & Hparse & Hlen & _).
  - reflexivity.
  - exists entries. split; [exact Hparse|exact Hlen].
Defined.

(** ** The explanation generator *)

Section generator.

Import my_slide.

Lemma request_loop_rate_limited n fuel w prompt e :
  (∀ i, (i < n)%nat → Completion_create w (api_calls e + i) prompt = RateLimitError) →
  request_loop (n + fuel) w prompt e
  = request_loop fuel w prompt
      {| api_calls := api_calls e + n;
         sleeps := (sleeps e ++ repeat 60 n)%list |}.
Proof.
  revert e. induction n as [|n IH]; intros e Hlimited; simpl.
  - rewrite Nat.add_0_r, app_nil_r. by destruct e.
  - pose proof (Hlimited 0%nat ltac:(lia)) as H0.
    rewrite Nat.add_0_r in H0. rewrite H0.
    rewrite IH.
    + simpl. f_equal. f_equal; [lia|]. by rewrite <- app_assoc.
    + intros i Hi. simpl. rewrite <- Nat.add_succ_r. apply Hlimited. lia.
Qed.

Lemma request_loop_always_limited fuel w prompt e :
  (∀ i, Completion_create w (api_calls e + i) prompt = RateLimitError) →
  request_loop fuel w prompt e = Diverged.
Proof.
  revert e. induction fuel as [|fuel IH]; intros e Hlimited; simpl; [done|].
  pose proof (Hlimited 0%nat) as H0. rewrite Nat.add_0_r in H0. rewrite H0.
  apply IH. intros i. simpl. rewrite <- Nat.add_succ_r. apply Hlimited.
Qed.

End generator.

(** C9. However many times in a row the API signals a rate limit, the
    generator sleeps 60 after each of them and calls again (there is no
    cap); the first call that fails in another way (authentication,
    timeout, any other error) ends the loop with the empty string, and the
    first call that answers ends it with the trimmed answer; as long as the
    API keeps signalling a rate limit the generator never returns. *)
Theorem generate_explanation_retry_policy (w : World) (self : my_slide.MySlide)
  (e : Effects) :
  (∀ n fuel outcome,
     (∀ i, (i < n)%nat →
        Completion_create w (api_calls e + i) (my_slide.construct_prompt self)
        = RateLimitError) →
     Completion_create w (api_calls e + n) (my_slide.construct_prompt self)
     = outcome →
     (n < fuel)%nat →
     (terminal_failure outcome = true →
      my_slide.generate_explanation fuel w self e
      = Ok (EmptyString, after_retries n e))
     ∧ (∀ choices, outcome = Returned true choices →
        my_slide.generate_explanation fuel w self e
        = Ok (my_slide.reply_of choices, after_retries n e)))
  ∧ (∀ fuel,
       (∀ i, Completion_create w (api_calls e + i) (my_slide.construct_prompt self)
             = RateLimitError) →
       my_slide.generate_explanation fuel w self e = Diverged).
Proof.
  split.
  - intros n fuel outcome Hlimited Hnext Hfuel.
    unfold my_slide.generate_explanation.
    replace fuel with (n + S (fuel - S n))%nat by lia.
    rewrite request_loop_rate_limited by done.
    simpl. rewrite Hnext. unfold after_retries, called; simpl.
    split.
    + by destruct outcome.
    + by intros choices ->.
  - intros fuel Hlimited. by apply request_loop_always_limited.
Qed.

Lemma generate_explanation_retry_policy_witness :
  my_slide.generate_explanation 3 demo.world
    {| my_slide.slide_number := 1; my_slide.text_boxes := ["Title"] |}
    {| api_calls := 1; sleeps := [] |}
  = Ok ("about: Slide 1", {| api_calls := 3; sleeps := [60] |}).
Proof.
  pose proof (generate_explanation_retry_policy demo.world
                {| my_slide.slide_number := 1; my_slide.text_boxes := ["Title"] |}
                {| api_calls := 1; sleeps := [] |}) as [Hretry _].
  destruct (Hretry 1%nat 3%nat (Returned true [" about: Slide 1 "])) as [_ Hanswer].
  - intros i Hi. assert (i = 0%nat) as -> by lia. reflexivity.
  - reflexivity.
  - lia.
  - exact (Hanswer _ eq_refl).
Defined.

(** ** The path the worker reads *)

Lemma startswith_app p s : Py.startswith p (p ++ s) = true.
Proof. induction p as [|c p IH]; simpl; [done|]. by rewrite decide_True. Qed.

Lemma path_join_relative folder a b :
  Py.startswith "/" a = false → Py.startswith "/" b = false →
  Py.path_join folder a = Py.path_join folder b → a = b.
Proof.
  unfold Py.path_join. intros -> ->.
  destruct (Py.is_empty folder || Py.endswith folder "/"); intros Heq.
  - by apply (inj (String.app folder)) in Heq.
  - apply (inj (String.app folder)) in Heq. by simplify_eq/=.
Qed.

Lemma string_app_assoc s1 s2 s3 : (s1 ++ s2) ++ s3 = s1 ++ s2 ++ s3.
Proof.
  induction s1 as [|c s1 IH]; [done|].
  change (String c ((s1 ++ s2) ++ s3) = String c (s1 ++ s2 ++ s3)).
  by rewrite IH.
Qed.

Lemma string_length_app s1 s2 :
  String.length (s1 ++ s2) = (String.length s1 + String.length s2)%nat.
Proof. induction s1 as [|c s1 IH]; simpl; [done|]. by rewrite IH. Qed.

Lemma getitem_elem {A} (l : list A) i x : Py.getitem l i = Some x → x ∈ l.
Proof.
  unfold Py.getitem. repeat case_match; try done; apply list_elem_of_lookup_2.
Qed.

(** Whatever the folder and whichever piece of the name
    [FILE_FORMAT_INDEX] selects, a file uploaded as [deck.pptx] is stored
    under another path than the one the worker derives from the job row. *)
Lemma stored_path_is_not_worker_path (cfg : Config) (uid stored : string) :
  Py.startswith "/" uid = false →
  server.generate_filename cfg uid "deck.pptx" = Some stored →
  uid ≠ "deck" →
  Py.path_join (UPLOAD_FOLDER cfg) stored
  ≠ Py.path_join (UPLOAD_FOLDER cfg) "deck.pptx".
Proof.
  intros Huid Hgen Hne Heq.
  unfold server.generate_filename in Hgen.
  destruct (Py.getitem _ _) as [piece|] eqn:Hpiece; [|done].
  injection Hgen as <-.
  apply path_join_relative in Heq; [|by destruct uid|done].
  assert (Hpieces : piece = "deck" ∨ piece = "pptx").
  { apply getitem_elem in Hpiece. simpl in Hpiece.
    apply elem_of_cons in Hpiece as [->|Hpiece]; [by left|].
    apply list_elem_of_singleton in Hpiece as ->. by right. }
  assert (Hlen : String.length (uid ++ "." ++ piece) = String.length "deck.pptx")
    by (by rewrite Heq).
  rewrite !string_length_app in Hlen.
  destruct Hpieces as [-> | ->]; simpl in Hlen;
    destruct uid as [|c1 [|c2 [|c3 [|c4 [|c5 ?]]]]]; simpl in *; try lia;
    injection Heq; intros; subst; done.
Qed.

(** C1 at a failing input.  The server stores the upload [deck.pptx] under
    [uploads/uid0.pptx]; the worker looks for [uploads/deck.pptx], finds no
    file there, and the pass leaves the job as it was. *)
Theorem worker_reads_original_filename :
  ∃ s upload s',
    steps spec_config demo.world
      [StartServer; demo.upload_of "deck.pptx" "PPTX"] (boot ∅) = Ok s
    ∧ database.uploads (tables s) = [upload]
    ∧ server.generate_filename spec_config (database.uid upload)
        (database.filename upload) = Some "uid0.pptx"
    ∧ files s !! Py.path_join (UPLOAD_FOLDER spec_config) "uid0.pptx"
      = Some (Blob "PPTX")
    ∧ Py.path_join (UPLOAD_FOLDER spec_config) (database.filename upload)
      = "uploads/deck.pptx"
    ∧ isfile (files s) "uploads/deck.pptx" = false
    ∧ explainer.worker_pass spec_config 5 demo.world s = Ok s'
    ∧ database.uploads (tables s') = [upload]
    ∧ database.status upload = "pending"
    ∧ files s' = files s.
Proof.
  eexists _, _, _. split; [vm_compute; reflexivity|].
  split; [vm_compute; reflexivity|].
  split_and!; vm_compute; reflexivity.
Qed.

(** ** A file that does not open *)

(** Whatever the configuration: a file that is there, has the extension
    and does not open is processed as a deck without slides. *)
Lemma unreadable_file_is_processed (cfg : Config) (fuel : nat) (w : World)
  (upload : database.Upload) (file_path : string) (s : System) :
  isfile (files s) file_path = true →
  Py.lower (Py.splitext (database.filename upload)).2
  = PRESENTATION_FILE_EXTENSION cfg →
  my_presentation.open_presentation w (files s) file_path = None →
  my_presentation.parse w (files s) (my_presentation.new file_path)
  = Ok (my_presentation.new file_path)
  ∧ ∃ s',
      explainer.process_upload_file cfg fuel w upload file_path s
      = Ok (Some (Py.path_join (OUTPUT_FOLDER cfg)
                    (database.uid upload ++ OUTPUT_FILE_EXTENSION cfg)), s')
      ∧ tables s' = tables s
      ∧ files s' !! Py.path_join (OUTPUT_FOLDER cfg)
                      (database.uid upload ++ OUTPUT_FILE_EXTENSION cfg)
        = Some (JsonText (JArr [])).
Proof.
  intros Hfile Hext Hopen.
  assert (Hparse : my_presentation.parse w (files s) (my_presentation.new file_path)
                   = Ok (my_presentation.new file_path)).
  { unfold my_presentation.parse; simpl. by rewrite Hopen. }
  split; [done|].
  unfold explainer.process_upload_file, explainer.main.
  rewrite Hfile, Hext, bool_decide_true by done. rewrite Hparse. simpl.
  eexists. split_and!; [done|done|]. simpl. by rewrite lookup_insert_eq.
Qed.

(** C3 at a failing input.  The second job's name makes the worker read
    the first job's stored file, which does not open as a presentation:
    [parse] returns normally without slides, the worker writes the empty
    array as the job's result document and marks the job done. *)
Theorem unreadable_file_marked_done :
  ∃ s s' job,
    steps spec_config demo.world
      [StartServer; demo.upload_of "a.pptx" "garbage";
       demo.upload_of "uid0.pptx" "garbage"] (boot ∅) = Ok s
    ∧ database.upload_by_uid (tables s) "uid1" = Some job
    ∧ database.status job = "pending"
    ∧ my_presentation.open_presentation demo.world (files s)
        (Py.path_join (UPLOAD_FOLDER spec_config) (database.filename job)) = None
    ∧ my_presentation.parse demo.world (files s)
        (my_presentation.new
           (Py.path_join (UPLOAD_FOLDER spec_config) (database.filename job)))
      = Ok (my_presentation.new "uploads/uid0.pptx")
    ∧ explainer.worker_pass spec_config 5 demo.world s = Ok s'
    ∧ (database.status <$> database.upload_by_uid (tables s') "uid1") = Some "done"
    ∧ files s' !! "outputs/uid1.json" = Some (JsonText (JArr [])).
Proof.
  eexists _, _, _. split; [vm_compute; reflexivity|].
  split; [vm_compute; reflexivity|].
  split_and!; vm_compute; reflexivity.
Qed.

(** ** Rejected uploads *)




(** ** Names in the output directory *)









(** ** The status service *)


Lemma upload_by_uid_Some t u job :
  database.upload_by_uid t u = Some job →
  job ∈ database.uploads t ∧ database.uid job = u.
Proof.
  unfold database.upload_by_uid. intros Hfind.
  apply List.find_some in Hfind as [Hin Huid].
  apply bool_decide_eq_true in Huid. by rewrite list_elem_of_In.
Qed.



Section latest_upload.

Import database.

Lemma head_insert_desc up sorted :
  head (insert_desc up sorted)
  = Some (match sorted with
          | [] => up
          | x :: _ => if upload_time x <=? upload_time up then up else x
          end).
Proof. destruct sorted as [|x rest]; simpl; [done|]. by case_match. Qed.

Lemma head_order_by_desc l :
  match head (order_by_desc_upload_time l) with
  | None => l = []
  | Some latest =>
      latest ∈ l ∧ ∀ up, up ∈ l → upload_time up ≤ upload_time latest
  end.
Proof.
  induction l as [|a l IH]; simpl; [done|].
  rewrite head_insert_desc.
  destruct (order_by_desc_upload_time l) as [|x rest]; simpl in IH.
  - subst l. split; [apply list_elem_of_here|].
    intros up ->%list_elem_of_singleton. lia.
  - destruct IH as [Hx Hmax].
    destruct (upload_time x <=? upload_time a) eqn:Hle.
    + apply Z.leb_le in Hle. split; [apply list_elem_of_here|].
      intros up [->|Hup]%elem_of_cons; [lia|]. specialize (Hmax up Hup). lia.
    + apply Z.leb_gt in Hle. split; [by apply list_elem_of_further|].
      intros up [->|Hup]%elem_of_cons; [lia|]. by apply Hmax.
Qed.

Lemma uploads_of_elem t user fn job :
  job ∈ uploads_of t user fn ↔ job ∈ uploads t ∧ job_of user fn job.
Proof.
  unfold uploads_of, job_of. rewrite !list_elem_of_In, List.filter_In.
  rewrite andb_true_iff, !bool_decide_eq_true. done.
Qed.




Lemma get_latest_upload_unfold cfg w fn em s :
  (server.get_latest_upload cfg w (Some fn) (Some em) s).1
  = match user_by_email (tables s) em with
    | None => Ok server.NotFound
    | Some user =>
        match head (order_by_desc_upload_time (uploads_of (tables s) user fn)) with
        | None => Ok server.NotFound
        | Some latest =>
            server.Found <$> (server.prepare_response cfg w (Some latest) s).1
        end
    end.
Proof.
  unfold server.get_latest_upload. cbn [mbind option_bind].
  destruct (user_by_email (tables s) em) as [user|]; [|done].
  destruct (head _) as [latest|]; [|done].
  by destruct (server.prepare_response cfg w (Some latest) s).
Qed.

End latest_upload.



(** ** The result document *)

Section result_document.

Import my_slide my_presentation explainer.

Lemma explain_slides_numbers fuel w items acc e result e' :
  explain_slides fuel w items acc e = Ok (result, e') →
  map slide_number result = (map slide_number acc ++ map fst items)%list.
Proof.
  revert acc e. induction items as [|[n slide] items IH]; intros acc e; simpl.
  - intros [= <- <-]. by rewrite app_nil_r.
  - destruct (generate_explanation fuel w slide e) as [[reply e1]| |]; simpl;
      [|done..].
    intros Hrest%IH. rewrite Hrest, map_app; simpl. by rewrite <- app_assoc.
Qed.

Lemma parse_slides w f path presentation :
  parse w f (new path) = Ok presentation →
  slides presentation
  = match open_presentation w f path with
    | Some prs => extractor_spec.entries prs
    | None => []
    end.
Proof.
  unfold parse; simpl.
  destruct (open_presentation w f path) as [prs|]; [|by intros [= <-]].
  pose proof (parse_loop_entries prs [] (pptx.slides prs) [] eq_refl
                (List.Forall_nil _)) as Hloop.
  simpl in Hloop. rewrite Hloop. simpl. by intros [= <-].
Qed.

Lemma main_explanations fuel w f path e presentation e' :
  main fuel w f path e = Ok (presentation, e') →
  ∃ result,
    explanations presentation = Some result
    ∧ map slide_number result
      = map fst (match open_presentation w f path with
                 | Some prs => extractor_spec.entries prs
                 | None => []
                 end).
Proof.
  unfold main.
  destruct (parse w f (new path)) as [parsed| |] eqn:Hparse; simpl; [|done..].
  apply parse_slides in Hparse.
  destruct (explain_slides fuel w (slides parsed) [] e) as [[result e1]| |]
    eqn:Hexplain; simpl; [|done..].
  intros [= <- <-]. exists result. split; [done|].
  apply explain_slides_numbers in Hexplain. by rewrite Hexplain, Hparse.
Qed.

End result_document.

(** C5, counterexample.  For a deck that is processed successfully the
    result document is an array whose items are arrays, not
    [{slide_number, explanation}] objects. *)
Lemma result_document_items_are_arrays :
  ∃ s' items,
    explainer.process_upload_file spec_config 5 demo.world demo.findable_job
      "uploads/uid0.pptx" demo.findable_upload
    = Ok (Some "outputs/uid1.json", s')
    ∧ files s' !! "outputs/uid1.json" = Some (JsonText (JArr items))
    ∧ items = [JArr [JNum 1; JStr "about: Slide 1"];
               JArr [JNum 4; JStr "about: Slide 4"]]
    ∧ ¬ Forall is_explanation_object items.
Proof.
  eexists _, _. split; [vm_compute; reflexivity|].
  split; [vm_compute; reflexivity|]. split; [reflexivity|].
  intros Hobjects. apply Forall_cons in Hobjects as [(n & e & [H|H]) _]; done.
Qed.

(** C5, amended.  For every successfully processed job the result document
    is stored under [<uid>] followed by the output extension and is a JSON
    array with one two-element array [[slide_number, explanation]] per
    explained slide; the slide numbers are strictly increasing, and when
    the file opens as a deck they are the positions of the deck's slides
    with text, in deck order, whatever the API calls returned and however
    often they were retried. *)
Theorem result_document_in_slide_order (cfg : Config) (fuel : nat) (w : World)
  (upload : database.Upload) (file_path : string) (s s' : System)
  (out : string) :
  explainer.process_upload_file cfg fuel w upload file_path s = Ok (Some out, s') →
  out = Py.path_join (OUTPUT_FOLDER cfg)
          (database.uid upload ++ OUTPUT_FILE_EXTENSION cfg)
  ∧ ∃ explanations,
      files s' !! out = Some (JsonText (JArr (map explanation_array explanations)))
      ∧ StronglySorted lt (map my_presentation.slide_number explanations)
      ∧ ∀ prs,
          my_presentation.open_presentation w (files s) file_path = Some prs →
          map my_presentation.slide_number explanations
          = map fst (extractor_spec.entries prs).
Proof.
  unfold explainer.process_upload_file.
  destruct (isfile _ _ && _); [|done].
  destruct (explainer.main fuel w (files s) file_path (effects s))
    as [[presentation e']| |] eqn:Hmain; [|done..].
  intros [= <- <-]. split; [done|].
  apply main_explanations in Hmain as (result & Hresult & Hnumbers).
  exists result. rewrite Hresult. simpl. split_and!.
  - rewrite lookup_insert_eq, map_map. done.
  - rewrite Hnumbers.
    destruct (my_presentation.open_presentation w (files s) file_path);
      [apply entries_from_sorted|constructor].
  - intros prs Hprs. by rewrite Hnumbers, Hprs.
Qed.

Lemma result_document_in_slide_order_witness :
  ∃ s' explanations,
    files s' !! "outputs/uid1.json"
    = Some (JsonText (JArr (map explanation_array explanations)))
    ∧ map my_presentation.slide_number explanations = [1; 4]%nat.
Proof.
  assert (Hrun : ∃ s',
            explainer.process_upload_file spec_config 5 demo.world
              demo.findable_job "uploads/uid0.pptx" demo.findable_upload
            = Ok (Some "outputs/uid1.json", s'))
    by (eexists; vm_compute; reflexivity).
  destruct Hrun as [s' Hrun].
  destruct (result_document_in_slide_order spec_config 5 demo.world
              demo.findable_job "uploads/uid0.pptx" demo.findable_upload s'
              "outputs/uid1.json" Hrun) as (_ & explanations & Hdoc & _ & Hdeck).
  exists s', explanations. split; [exact Hdoc|].
  apply (Hdeck demo.deck). reflexivity.
Defined.

(** ** The job table under the core operations *)

Section job_table.

Import database.

Lemma next_id_above ids x : x ∈ ids → (x < next_id ids)%nat.
Proof.
  unfold next_id. induction 1 as [x ids|x y ids _ IH]; simpl; lia.
Qed.

Lemma NoDup_map_elem {A B} (f : A → B) (l : list A) x y :
  NoDup (map f l) → x ∈ l → y ∈ l → f x = f y → x = y.
Proof.
  induction l as [|a l IH]; simpl; intros Hnd Hx Hy Hf.
  - by apply elem_of_nil in Hx.
  - apply NoDup_cons in Hnd as [Ha Hnd].
    apply elem_of_cons in Hx as [->|Hx]; apply elem_of_cons in Hy as [->|Hy].
    + done.
    + destruct Ha. rewrite Hf. apply list_elem_of_In, List.in_map.
      by apply list_elem_of_In.
    + destruct Ha. rewrite <- Hf. apply list_elem_of_In, List.in_map.
      by apply list_elem_of_In.
    + by apply IH.
Qed.

Lemma Forall2_map_same {A} (R : A → A → Prop) (g : A → A) (l : list A) :
  (∀ x, x ∈ l → R x (g x)) → Forall2 R l (map g l).
Proof.
  induction l as [|a l IH]; intros HR; simpl; constructor.
  - apply HR, list_elem_of_here.
  - apply IH. intros x Hx. by apply HR, list_elem_of_further.
Qed.

Lemma advance_refl w n n' x : advance w n n' x x.
Proof. by left. Qed.

Lemma Forall2_advance_refl w n n' l : Forall2 (advance w n n') l l.
Proof. induction l; constructor; [apply advance_refl|done]. Qed.

Lemma advance_trans w n1 n2 n3 x y z :
  (n1 ≤ n2)%nat → (n2 ≤ n3)%nat →
  advance w n1 n2 x y → advance w n2 n3 y z → advance w n1 n3 x z.
Proof.
  intros H12 H23 [->|(Hx & j & Hj & ->)] [->|(Hy & k & Hk & ->)].
  - by left.
  - right. split; [done|]. exists k. split; [lia|done].
  - right. split; [done|]. exists j. split; [lia|done].
  - done.
Qed.

Lemma advance_same_job w n n' x x' : advance w n n' x x' → same_job x x'.
Proof. by intros [->|(_ & j & _ & ->)]. Qed.

Lemma Forall2_advance_trans w n1 n2 n3 l1 l2 l3 :
  (n1 ≤ n2)%nat → (n2 ≤ n3)%nat →
  Forall2 (advance w n1 n2) l1 l2 → Forall2 (advance w n2 n3) l2 l3 →
  Forall2 (advance w n1 n3) l1 l3.
Proof.
  intros H12 H23 H. revert l3.
  induction H as [|x y l1 l2 Hxy _ IH]; intros l3 H3; inversion H3; subst;
    constructor; eauto using advance_trans.
Qed.

Lemma Forall2_advance_ids w n n' l l' :
  Forall2 (advance w n n') l l' →
  map Upload_id l' = map Upload_id l ∧ map uid l' = map uid l.
Proof.
  induction 1 as [|x y l l' Hxy _ [IH1 IH2]]; simpl; [done|].
  apply advance_same_job in Hxy as (Hid & Huid & _).
  by rewrite IH1, IH2, Hid, Huid.
Qed.

Lemma row_ok_mono w n n' x : (n ≤ n')%nat → row_ok w n x → row_ok w n' x.
Proof.
  intros Hn (i & Hi & Htime & Hstate). exists i. split_and!; [lia|done|].
  destruct Hstate as [?|(Hdone & j & Hj & Hfinish)]; [by left|].
  right. split; [done|]. exists j. split; [lia|done].
Qed.

Lemma row_ok_advance w n n' x x' :
  (n ≤ n')%nat → row_ok w n x → advance w n n' x x' → row_ok w n' x'.
Proof.
  intros Hn Hok [->|(Hpending & j & Hj & ->)]; [by eapply row_ok_mono|].
  destruct Hok as (i & Hi & Htime & _). exists i. split_and!; [lia|done|].
  right. split; [done|]. exists j. split; [lia|done].
Qed.

End job_table.

Section worker_table.

Import database explainer.

Lemma process_upload_file_tables cfg fuel w u p s r s1 :
  process_upload_file cfg fuel w u p s = Ok (r, s1) →
  tables s1 = tables s ∧ now_reads s1 = now_reads s.
Proof.
  unfold process_upload_file. destruct (isfile _ _ && _); [|by intros [= <- <-]].
  destruct (main fuel w (files s) p (effects s)) as [[presentation e']| |];
    [|by intros [= <- <-]|done].
  by intros [= <- <-].
Qed.

Lemma update_upload_status_tables w u s :
  tables (update_upload_status w u s)
  = update_upload (tables s) (mark_done (datetime_now w (now_reads s)) u)
  ∧ now_reads (update_upload_status w u s) = S (now_reads s).
Proof. done. Qed.

(** Committing a job of the table as done advances that row and no other. *)
Lemma update_upload_advance w n t u :
  NoDup (map Upload_id (uploads t)) →
  u ∈ uploads t → status u = status_utils.STATUS_pending →
  users (update_upload t (mark_done (datetime_now w n) u)) = users t
  ∧ Forall2 (advance w n (S n)) (uploads t)
      (uploads (update_upload t (mark_done (datetime_now w n) u)))
  ∧ ∀ u2, u2 ∈ uploads t → Upload_id u2 ≠ Upload_id u →
          u2 ∈ uploads (update_upload t (mark_done (datetime_now w n) u)).
Proof.
  intros Hnd Hu Hpending. unfold update_upload; simpl. split_and!; [done| |].
  - apply Forall2_map_same. intros x Hx. case_decide as Hid; [|by left].
    simpl in Hid. assert (x = u) as -> by (by eapply NoDup_map_elem).
    right. split; [done|]. exists n. split; [lia|done].
  - intros u2 Hu2 Hne. apply list_elem_of_In, List.in_map_iff.
    exists u2. split; [|by apply list_elem_of_In].
    by rewrite decide_False.
Qed.

Lemma process_pending_advance cfg fuel w rest s s' :
  NoDup (map Upload_id (uploads (tables s))) →
  NoDup (map Upload_id rest) →
  (∀ u, u ∈ rest →
        u ∈ uploads (tables s) ∧ status u = status_utils.STATUS_pending) →
  process_pending cfg fuel w rest s = Ok s' →
  (now_reads s ≤ now_reads s')%nat
  ∧ users (tables s') = users (tables s)
  ∧ Forall2 (advance w (now_reads s) (now_reads s'))
      (uploads (tables s)) (uploads (tables s')).
Proof.
  revert s. induction rest as [|u rest IH]; intros s Hnd Hrest Hin; simpl.
  - intros [= <-]. split_and!; [done|done|apply Forall2_advance_refl].
  - destruct (process_upload_file cfg fuel w u _ s) as [[r s1]| |] eqn:Hfile;
      simpl; [|done..].
    apply process_upload_file_tables in Hfile as [Htables Hnow].
    apply NoDup_cons in Hrest as [Hu_fresh Hrest].
    destruct (Hin u (list_elem_of_here _ _)) as [Hu Hpending].
    set (s2 := match r with
               | Some path => if Py.truthy path then update_upload_status w u s1 else s1
               | None => s1
               end).
    assert (Hstep : (now_reads s ≤ now_reads s2)%nat
                    ∧ users (tables s2) = users (tables s)
                    ∧ Forall2 (advance w (now_reads s) (now_reads s2))
                        (uploads (tables s)) (uploads (tables s2))
                    ∧ ∀ u2, u2 ∈ uploads (tables s) →
                            Upload_id u2 ≠ Upload_id u →
                            u2 ∈ uploads (tables s2)).
    { assert (Hsame : (now_reads s ≤ now_reads s1)%nat
                      ∧ users (tables s1) = users (tables s)
                      ∧ Forall2 (advance w (now_reads s) (now_reads s1))
                          (uploads (tables s)) (uploads (tables s1))
                      ∧ ∀ u2, u2 ∈ uploads (tables s) →
                              Upload_id u2 ≠ Upload_id u →
                              u2 ∈ uploads (tables s1)).
      { rewrite Htables, Hnow.
        split_and!; [done|done|apply Forall2_advance_refl|done]. }
      subst s2. destruct r as [path|]; [|done].
      destruct (Py.truthy path); [|done].
      destruct (update_upload_status_tables w u s1) as [-> ->].
      rewrite Htables, Hnow.
      destruct (update_upload_advance w (now_reads s) (tables s) u Hnd Hu Hpending)
        as (Husers & Hadv & Hothers).
      split_and!; [lia|done|done|done]. }
    destruct Hstep as (Hle & Husers & Hadv & Hothers).
    intros Hrun. apply IH in Hrun as (Hle' & Husers' & Hadv').
    + split_and!; [lia|congruence|].
      eapply Forall2_advance_trans; [| |exact Hadv|exact Hadv']; done.
    + apply Forall2_advance_ids in Hadv as [-> _]. done.
    + done.
    + intros u2 Hu2. destruct (Hin u2 (list_elem_of_further _ _ _ Hu2)) as [Hu2' Hp2].
      split; [|done]. apply Hothers; [done|].
      intros Heq. apply Hu_fresh. rewrite <- Heq.
      apply list_elem_of_In, List.in_map. by apply list_elem_of_In.
Qed.

End worker_table.

Section step_table.

Import database.

Lemma tables_grow_same w s s' :
  tables s' = tables s → (now_reads s ≤ now_reads s')%nat → tables_grow w s s'.
Proof.
  intros Ht Hn. split; [done|]. exists [], (uploads (tables s)), [].
  rewrite Ht, !app_nil_r. split_and!; [done|done|apply Forall2_advance_refl|by left].
Qed.

Lemma create_user_tables e t :
  uploads (server.create_user e t).2 = uploads t
  ∧ ∃ new_users, users (server.create_user e t).2 = (users t ++ new_users)%list.
Proof.
  unfold server.create_user. destruct (user_by_email t e); simpl.
  - split; [done|]. exists []. by rewrite app_nil_r.
  - split; [done|]. by eexists.
Qed.

Lemma create_upload_grows w s s1 u fn user t new_users :
  tables s1 = tables s → now_reads s1 = now_reads s →
  uploads t = uploads (tables s) →
  users t = (users (tables s) ++ new_users)%list →
  tables_grow w s
    match server.create_upload w u fn user t s1 with
    | Some (_, s2) => (server.UidResponse u, s2)
    | None => (server.ServerError, (read_now w s1).2)
    end.2.
Proof.
  intros Ht1 Hn1 Hup Hus.
  unfold server.create_upload, read_now, add_upload; simpl.
  destruct (upload_by_uid t u) as [old|] eqn:Hfind; simpl.
  - apply tables_grow_same; simpl; [done|lia].
  - split; [simpl; lia|]. simpl.
    exists new_users, (uploads (tables s)). eexists.
    rewrite Hup, Hus. split_and!; [done|done|apply Forall2_advance_refl|].
    right. eexists. split; [done|].
    split; [|simpl; lia]. unfold created; simpl. rewrite Hn1.
    split_and!; try done. unfold upload_by_uid in *. by rewrite <- Hup.
Qed.

Lemma upload_grows cfg w request s :
  tables_grow w s (server.upload cfg w request s).2.
Proof.
  unfold server.upload.
  destruct (server.request_file request) as [file|];
    [|by apply tables_grow_same].
  unfold draw_uuid. cbv zeta beta iota.
  destruct (server.generate_filename _ _ _) as [filename|];
    [|by apply tables_grow_same].
  destruct (server.form_email request) as [e|].
  - pose proof (create_user_tables e
                  (tables (server.save_file cfg file filename
                     {| tables := tables s; files := files s;
                        now_reads := now_reads s;
                        uuid_draws := S (uuid_draws s);
                        effects := effects s |}))) as (Hup & new_users & Hus).
    destruct (server.create_user e _) as [user t]. simpl in Hup, Hus.
    by eapply create_upload_grows.
  - cbv zeta beta iota.
    eapply (create_upload_grows w s _ _ _ _ _ []); try done.
    simpl. by rewrite app_nil_r.
Qed.

Lemma prepare_response_state cfg w upload s :
  tables (server.prepare_response cfg w upload s).2 = tables s
  ∧ now_reads (server.prepare_response cfg w upload s).2 = S (now_reads s).
Proof. unfold server.prepare_response, read_now; simpl. by destruct upload. Qed.

Lemma status_grows cfg w u s : tables_grow w s (server.status cfg w u s).2.
Proof.
  unfold server.status. destruct (upload_by_uid (tables s) u) as [upload|];
    [|by apply tables_grow_same].
  pose proof (prepare_response_state cfg w (Some upload) s) as [Ht Hn].
  destruct (server.prepare_response cfg w (Some upload) s) as [r s'].
  apply tables_grow_same; simpl in *; [done|lia].
Qed.

Lemma get_latest_upload_grows cfg w fn em s :
  tables_grow w s (server.get_latest_upload cfg w fn em s).2.
Proof.
  unfold server.get_latest_upload.
  destruct (em ≫= user_by_email (tables s)) as [user|];
    [|by apply tables_grow_same].
  destruct (head _) as [latest|]; [|by apply tables_grow_same].
  pose proof (prepare_response_state cfg w (Some latest) s) as [Ht Hn].
  destruct (server.prepare_response cfg w (Some latest) s) as [r s'].
  apply tables_grow_same; simpl in *; [done|lia].
Qed.

Lemma NoDup_map_filter {A B} (f : A → B) (p : A → bool) (l : list A) :
  NoDup (map f l) → NoDup (map f (List.filter p l)).
Proof.
  induction l as [|a l IH]; simpl; [done|].
  intros [Ha Hnd]%NoDup_cons. destruct (p a); simpl; [|by apply IH].
  apply NoDup_cons. split; [|by apply IH].
  intros Hin%list_elem_of_In%List.in_map_iff. destruct Hin as (x & Hfx & Hx).
  apply List.filter_In in Hx as [Hx _]. apply Ha. rewrite <- Hfx.
  by apply list_elem_of_In, List.in_map.
Qed.

Lemma worker_pass_grows cfg fuel w s s' :
  NoDup (map Upload_id (uploads (tables s))) →
  explainer.worker_pass cfg fuel w s = Ok s' → tables_grow w s s'.
Proof.
  intros Hnd. unfold explainer.worker_pass.
  assert (Hpass : ∀ s1,
            explainer.process_pending cfg fuel w
              (uploads_by_status (tables s) status_utils.STATUS_pending) s = Ok s1 →
            tables_grow w s (with_effects (time_sleep 10 (effects s1)) s1)).
  { intros s1 Hrun. apply process_pending_advance in Hrun as (Hle & Hus & Hadv).
    - split; [done|]. exists [], (uploads (tables s1)), []. simpl.
      rewrite Hus, !app_nil_r. split_and!; [done|done|done|by left].
    - done.
    - by apply NoDup_map_filter.
    - intros u [Hu Hst]%list_elem_of_In%List.filter_In.
      split; [by apply list_elem_of_In|]. by apply bool_decide_eq_true in Hst. }
  destruct (uploads_by_status _ _) as [|u rest] eqn:Hpending.
  - intros [= <-]. by apply tables_grow_same.
  - destruct (explainer.process_pending _ _ _ _ _) as [s1| |] eqn:Hrun;
      simpl; [|done..].
    intros [= <-]. by apply Hpass.
Qed.

End step_table.

Section invariant.

Import database.

Lemma step_start cfg w ev s s' :
  is_start ev = true → step cfg w ev s = Ok s' →
  users (tables s') = [] ∧ uploads (tables s') = []
  ∧ now_reads s' = now_reads s.
Proof. destruct ev; try done; by intros _ [= <-]. Qed.

Lemma step_grows cfg w ev s s' :
  is_start ev = false →
  NoDup (map Upload_id (uploads (tables s))) →
  step cfg w ev s = Ok s' → tables_grow w s s'.
Proof.
  destruct ev; try done; simpl; intros _ Hnd.
  - intros [= <-]. apply upload_grows.
  - intros [= <-]. apply status_grows.
  - intros [= <-]. apply get_latest_upload_grows.
  - by apply worker_pass_grows.
Qed.

Lemma upload_by_uid_None t u :
  upload_by_uid t u = None → u ∉ map uid (uploads t).
Proof.
  unfold upload_by_uid. intros Hnone Hin%list_elem_of_In%List.in_map_iff.
  destruct Hin as (x & Hx & Hin).
  pose proof (List.find_none _ _ Hnone x Hin) as Hfalse. simpl in Hfalse.
  by apply bool_decide_eq_false in Hfalse.
Qed.

Lemma Forall2_advance_row_ok w n n' l l' :
  (n ≤ n')%nat → Forall (row_ok w n) l → Forall2 (advance w n n') l l' →
  Forall (row_ok w n') l'.
Proof.
  intros Hn Hok Hadv. revert Hok.
  induction Hadv as [|x y l l' Hxy _ IH]; intros Hok; [constructor|].
  apply Forall_cons in Hok as [Hx Hl]. constructor; [|by apply IH].
  by eapply row_ok_advance.
Qed.

Lemma tables_grow_ok w s s' : table_ok w s → tables_grow w s s' → table_ok w s'.
Proof.
  intros (Hids & Huids & Hrows)
         (Hn & new_users & olds & added & Hus & Hup & Hadv & Hadded).
  pose proof (Forall2_advance_ids _ _ _ _ _ Hadv) as [Hids' Huids'].
  pose proof (Forall2_advance_row_ok _ _ _ _ _ Hn Hrows Hadv) as Hrows'.
  unfold table_ok. rewrite Hup, !map_app, Hids', Huids'.
  destruct Hadded as [->|(new & -> & (Htime & Hst & Hfin & Hid & Huid) & Hn')];
    simpl.
  - by rewrite !app_nil_r.
  - split_and!.
    + apply NoDup_app. split_and!; [done| |apply NoDup_singleton].
      intros x Hx ->%list_elem_of_singleton.
      apply next_id_above in Hx. lia.
    + apply NoDup_app. split_and!; [done| |apply NoDup_singleton].
      intros x Hx ->%list_elem_of_singleton.
      by apply upload_by_uid_None in Huid.
    + apply Forall_app. split; [done|]. constructor; [|constructor].
      exists (now_reads s). split_and!; [lia|done|by left].
Qed.

Lemma boot_ok w f : table_ok w (boot f).
Proof. repeat split; constructor. Qed.

Lemma step_ok cfg w ev s s' :
  table_ok w s → step cfg w ev s = Ok s' → table_ok w s'.
Proof.
  intros Hok Hstep. destruct (is_start ev) eqn:Hstart.
  - destruct (step_start _ _ _ _ _ Hstart Hstep) as (_ & Hup & _).
    unfold table_ok. rewrite Hup. repeat split; constructor.
  - eapply tables_grow_ok; [done|]. eapply step_grows; [done| |done]. apply Hok.
Qed.

Lemma reachable_ok cfg w s : reachable cfg w s → table_ok w s.
Proof.
  induction 1 as [f|s ev s' _ IH Hstep]; [apply boot_ok|by eapply step_ok].
Qed.

Lemma steps_reachable cfg w evs s s' :
  reachable cfg w s → steps cfg w evs s = Ok s' → reachable cfg w s'.
Proof.
  revert s. induction evs as [|ev evs IH]; intros s Hs; simpl.
  - by intros [= <-].
  - destruct (step cfg w ev s) as [s1| |] eqn:Hstep; simpl; [|done..].
    apply IH. by eapply reachable_step.
Qed.

End invariant.

(** ** Rows are kept, except by a process start *)

(** C2, counterexample.  A job row exists, the worker process is started,
    and the row is gone: importing [database.database] drops the tables. *)
Lemma worker_start_drops_rows :
  ∃ s job s',
    reachable spec_config demo.world s
    ∧ job ∈ database.uploads (tables s)
    ∧ step spec_config demo.world StartWorker s = Ok s'
    ∧ ¬ ∃ job', job' ∈ database.uploads (tables s')
                ∧ database.uid job' = database.uid job.
Proof.
  exists demo.two_uploads. eexists _, _. split_and!.
  - apply (steps_reachable spec_config demo.world
             [StartServer; demo.upload_of "deck.pptx" "PPTX";
              demo.upload_of "deck.pptx" "PPTX"] (boot ∅)).
    + apply reachable_boot.
    + vm_compute. reflexivity.
  - vm_compute. apply list_elem_of_here.
  - reflexivity.
  - intros (job' & Hin & _). simpl in Hin. by apply elem_of_nil in Hin.
Qed.

(** C2, amended.  In every reachable state, an upload request, a status
    request, a latest-upload request and a worker pass keep every User row
    and every Job row (a Job row may be marked done, nothing else of it
    changes); starting the server or the worker empties both tables. *)
Theorem rows_kept_except_by_start (cfg : Config) (w : World) (ev : event)
  (s s' : System) :
  reachable cfg w s → step cfg w ev s = Ok s' →
  if is_start ev
  then database.users (tables s') = [] ∧ database.uploads (tables s') = []
  else (∀ user, user ∈ database.users (tables s) →
                user ∈ database.users (tables s'))
       ∧ (∀ job, job ∈ database.uploads (tables s) →
                 ∃ job', job' ∈ database.uploads (tables s') ∧ same_job job job').
Proof.
  intros Hreach%reachable_ok Hstep. destruct (is_start ev) eqn:Hstart.
  - destruct (step_start _ _ _ _ _ Hstart Hstep) as (Hus & Hup & _). done.
  - destruct (step_grows cfg w ev s s' Hstart (proj1 Hreach) Hstep)
      as (_ & new_users & olds & added & Hus & Hup & Hadv & _).
    split.
    + intros user Huser. rewrite Hus. apply elem_of_app. by left.
    + intros job Hjob. rewrite Hup.
      apply list_elem_of_lookup in Hjob as [i Hi].
      destruct (Forall2_lookup_l _ _ _ _ _ Hadv Hi) as (job' & Hi' & Hjob').
      exists job'. split; [|by eapply advance_same_job].
      apply elem_of_app. left. by eapply list_elem_of_lookup_2.
Qed.

Lemma rows_kept_except_by_start_witness :
  ∃ s', explainer.worker_pass spec_config 5 demo.world demo.findable_upload = Ok s'
        ∧ ∃ job', job' ∈ database.uploads (tables s')
                  ∧ same_job demo.findable_job job'.
Proof.
  assert (Hrun : ∃ s', step spec_config demo.world (WorkerPassEvent 5)
                         demo.findable_upload = Ok s')
    by (eexists; vm_compute; reflexivity).
  destruct Hrun as [s' Hrun]. exists s'. split; [exact Hrun|].
  assert (Hreach : reachable spec_config demo.world demo.findable_upload).
  { apply (steps_reachable spec_config demo.world
             [StartServer; demo.upload_of "a.pptx" "PPTX";
              demo.upload_of "uid0.pptx" "PPTX"] (boot ∅)).
    - apply reachable_boot.
    - vm_compute. reflexivity. }
  pose proof (rows_kept_except_by_start spec_config demo.world
                (WorkerPassEvent 5) demo.findable_upload s' Hreach Hrun)
    as [_ Hjobs].
  apply Hjobs. vm_compute. apply list_elem_of_further, list_elem_of_here.
Defined.

(** ** The life of a job *)



(** * Further properties of the code *)

(** ** Trimmed text *)

Lemma lstrip_first s c :
  first_char (Py.lstrip s) = Some c → Py.isspace c = false.
Proof.
  induction s as [|a s IH]; simpl; [done|].
  destruct (Py.isspace a) eqn:Ha; [done|]. simpl. by intros [= <-].
Qed.

Lemma rstrip_first s c :
  first_char (Py.rstrip s) = Some c → first_char s = Some c.
Proof.
  destruct s as [|a s]; simpl; [done|].
  by destruct (Py.isspace a && Py.is_empty (Py.rstrip s)).
Qed.

Lemma rstrip_last s c :
  last_char (Py.rstrip s) = Some c → Py.isspace c = false.
Proof.
  induction s as [|a s IH]; simpl; [done|].
  destruct (Py.rstrip s) as [|b r] eqn:Hr.
  - destruct (Py.isspace a) eqn:Ha; simpl; [done|]. by intros [= <-].
  - rewrite andb_false_r. exact IH.
Qed.

Lemma strip_trimmed s : Py.strip s ≠ EmptyString → trimmed (Py.strip s).
Proof.
  intros Hne. split_and!; [done| |].
  - intros c Hc%rstrip_first. by eapply lstrip_first.
  - intros c Hc. by eapply rstrip_last.
Qed.

Lemma slide_text_trimmed slide text :
  text ∈ extractor_spec.slide_text slide → trimmed text.
Proof.
  unfold extractor_spec.slide_text.
  intros [Hin Hne]%list_elem_of_In%List.filter_In.
  apply List.in_map_iff in Hin as (run & <- & _).
  apply strip_trimmed. by destruct (Py.strip run).
Qed.

(** X1. Every text a parsed presentation holds for a slide is trimmed: it
    is not empty and has no white space at either end. *)
Theorem parsed_text_boxes_trimmed (w : World) (f : gmap string file)
  (path : string) (presentation : my_presentation.MyPresentation)
  (n : nat) (slide : my_slide.MySlide) (text : string) :
  my_presentation.parse w f (my_presentation.new path) = Ok presentation →
  (n, slide) ∈ my_presentation.slides presentation →
  text ∈ my_slide.text_boxes slide →
  trimmed text.
Proof.
  intros Hparse%parse_slides Hslide Htext. rewrite Hparse in Hslide.
  destruct (my_presentation.open_presentation w f path) as [prs|];
    [|by apply elem_of_nil in Hslide].
  apply entries_from_elem in Hslide as (i & s & _ & _ & _ & ->).
  by eapply slide_text_trimmed.
Qed.

Lemma parsed_text_boxes_trimmed_witness : trimmed "Title".
Proof.
  apply (parsed_text_boxes_trimmed demo.world {["deck.pptx" := Blob "PPTX"]}
           "deck.pptx"
           {| my_presentation.filepath := "deck.pptx";
              my_presentation.explanations := None;
              my_presentation.slides := extractor_spec.entries demo.deck |}
           1%nat
           {| my_slide.slide_number := 1;
              my_slide.text_boxes := ["Title"; "body"] |}).
  - reflexivity.
  - vm_compute. apply list_elem_of_here.
  - apply list_elem_of_here.
Defined.

(** ** The prompt *)

Lemma join_cons sep piece piece' rest :
  join sep (piece :: piece' :: rest) = piece ++ sep ++ join sep (piece' :: rest).
Proof. done. Qed.

Lemma fold_left_join sep header pieces :
  fold_left (fun acc piece => acc ++ sep ++ piece) pieces header
  = join sep (header :: pieces).
Proof.
  revert header. induction pieces as [|piece pieces IH]; intros header; [done|].
  cbn [fold_left]. rewrite IH, join_cons.
  destruct pieces as [|piece' pieces]; [done|].
  by rewrite !join_cons, !string_app_assoc.
Qed.

(** X2. The prompt of a slide is the header line naming the slide number,
    then the slide's texts one per line in their order, then an empty line
    and the instruction. *)
Theorem construct_prompt_lines (self : my_slide.MySlide) :
  my_slide.construct_prompt self
  = join my_slide.newline
      (("Slide " ++ pretty (my_slide.slide_number self) ++ ":")
       :: my_slide.text_boxes self)
    ++ my_slide.newline ++ my_slide.newline ++ "AI, please explain the slide.".
Proof. unfold my_slide.construct_prompt. by rewrite fold_left_join. Qed.

(** ** The stored file name *)

Lemma split_length sep s :
  length (Py.split sep s) = S (count_char sep s).
Proof.
  induction s as [|c s IH]; simpl; [done|].
  case_decide; simpl; [by rewrite IH|].
  destruct (Py.split sep s); simpl in *; lia.
Qed.

Lemma split_pieces sep s piece :
  piece ∈ Py.split sep s → count_char sep piece = 0%nat.
Proof.
  revert piece. induction s as [|c s IH]; intros piece; simpl.
  - by intros ->%list_elem_of_singleton.
  - case_decide as Hc.
    + intros [->|Hin]%elem_of_cons; [done|by apply IH].
    + destruct (Py.split sep s) as [|p ps].
      * intros ->%list_elem_of_singleton. simpl. by rewrite decide_False.
      * intros [->|Hin]%elem_of_cons.
        -- simpl. rewrite decide_False by done. apply IH, list_elem_of_here.
        -- by apply IH, list_elem_of_further.
Qed.

Lemma getitem_None {A} (l : list A) i :
  Py.getitem l i = None
  ↔ ¬ (- Z.of_nat (length l) ≤ i < Z.of_nat (length l)).
Proof.
  unfold Py.getitem.
  destruct ((0 <=? i) && (i <? Z.of_nat (length l))) eqn:Hpos.
  - apply andb_true_iff in Hpos as [?%Z.leb_le ?%Z.ltb_lt].
    rewrite lookup_ge_None. lia.
  - destruct ((- Z.of_nat (length l) <=? i) && (i <? 0)) eqn:Hneg.
    + apply andb_true_iff in Hneg as [?%Z.leb_le ?%Z.ltb_lt].
      rewrite lookup_ge_None. lia.
    + apply andb_false_iff in Hpos, Hneg. split; [|done]. intros _.
      destruct Hpos as [?%Z.leb_gt|?%Z.ltb_ge],
               Hneg as [?%Z.leb_gt|?%Z.ltb_ge]; lia.
Qed.

(** X3. [generate_filename] raises exactly when [FILE_FORMAT_INDEX] is no
    index, from the front or from the back, into the pieces of the name
    between its dots, of which there is one more than dots; otherwise the
    stored name is the uid, a dot and one of these pieces, which holds no
    dot. *)
Theorem generate_filename_pieces (cfg : Config) (uid name : string) :
  (server.generate_filename cfg uid name = None
   ↔ ¬ (- Z.of_nat (S (count_char "." name)) ≤ FILE_FORMAT_INDEX cfg
        < Z.of_nat (S (count_char "." name))))
  ∧ ∀ stored,
      server.generate_filename cfg uid name = Some stored →
      ∃ piece, stored = uid ++ "." ++ piece
               ∧ piece ∈ Py.split "." name
               ∧ count_char "." piece = 0%nat.
Proof.
  unfold server.generate_filename. split.
  - rewrite <- (split_length "." name), <- getitem_None.
    by destruct (Py.getitem _ _).
  - intros stored Hstored.
    destruct (Py.getitem _ _) as [piece|] eqn:Hpiece; [|done].
    injection Hstored as <-. apply getitem_elem in Hpiece.
    exists piece. split_and!; [done|done|by eapply split_pieces].
Qed.

Lemma generate_filename_pieces_witness :
  server.generate_filename spec_config "uid0" "noextension" = None
  ∧ ∃ piece, "uid0.tar" = "uid0" ++ "." ++ piece
             ∧ piece ∈ Py.split "." "backup.tar.gz"
             ∧ count_char "." piece = 0%nat.
Proof.
  split.
  - apply (generate_filename_pieces spec_config "uid0" "noextension").
    simpl. lia.
  - apply (generate_filename_pieces spec_config "uid0" "backup.tar.gz").
    reflexivity.
Defined.

(** ** Accepted and failed uploads *)

Section upload_outcome.

Import database.

Lemma find_app_None {A} (p : A → bool) (l1 l2 : list A) :
  List.find p l1 = None → List.find p (l1 ++ l2)%list = List.find p l2.
Proof.
  induction l1 as [|a l1 IH]; simpl; [done|]. by destruct (p a).
Qed.

Lemma find_app_Some {A} (p : A → bool) (l1 l2 : list A) x :
  List.find p l1 = Some x → List.find p (l1 ++ l2)%list = Some x.
Proof.
  induction l1 as [|a l1 IH]; simpl; [done|]. by destruct (p a).
Qed.

(** The user [create_user] returns is the one the email resolves to
    afterwards; a user row is added only when the email resolved to none. *)
Lemma create_user_resolves e t :
  user_by_email (server.create_user e t).2 e = Some (server.create_user e t).1
  ∧ uploads (server.create_user e t).2 = uploads t
  ∧ (users (server.create_user e t).2 = users t
     ∨ (user_by_email t e = None
        ∧ users (server.create_user e t).2
          = (users t ++ [(server.create_user e t).1])%list)).
Proof.
  unfold server.create_user.
  destruct (user_by_email t e) as [user|] eqn:Huser; simpl.
  - split_and!; [done|done|by left].
  - split_and!; [|done|by right].
    unfold user_by_email in *; simpl. rewrite find_app_None by done.
    simpl. by rewrite bool_decide_true.
Qed.

(** What [upload] does once the request has a file and the stored name is
    defined: the file is saved, the user resolved, and the commit decides. *)
Lemma upload_with_file cfg w request s file stored :
  server.request_file request = Some file →
  server.generate_filename cfg (uuid4 w (uuid_draws s)) (server.file_filename file)
  = Some stored →
  ∃ user t,
    (match server.form_email request with
     | Some e => user = Some (server.create_user e (tables s)).1
                 ∧ t = (server.create_user e (tables s)).2
     | None => user = None ∧ t = tables s
     end)
    ∧ server.upload cfg w request s
      = match add_upload t (uuid4 w (uuid_draws s)) (server.file_filename file)
                (datetime_now w (now_reads s)) user with
        | Some (_, t') =>
            (server.UidResponse (uuid4 w (uuid_draws s)),
             {| tables := t';
                files := <[Py.path_join (UPLOAD_FOLDER cfg) stored :=
                             Blob (server.stream file)]> (files s);
                now_reads := S (now_reads s);
                uuid_draws := S (uuid_draws s);
                effects := effects s |})
        | None =>
            (server.ServerError,
             {| tables := tables s;
                files := <[Py.path_join (UPLOAD_FOLDER cfg) stored :=
                             Blob (server.stream file)]> (files s);
                now_reads := S (now_reads s);
                uuid_draws := S (uuid_draws s);
                effects := effects s |})
        end.
Proof.
  intros Hfile Hstored. unfold server.upload. rewrite Hfile.
  unfold draw_uuid. cbv zeta beta iota. rewrite Hstored.
  destruct (server.form_email request) as [e|].
  - exists (Some (server.create_user e (tables s)).1),
           (server.create_user e (tables s)).2.
    split; [done|].
    unfold server.save_file at 1. simpl.
    destruct (server.create_user e (tables s)) as [user t]. simpl.
    unfold server.create_upload, read_now; simpl.
    by destruct (add_upload t _ _ _ _) as [[new t']|].
  - exists None, (tables s). split; [done|].
    unfold server.create_upload, server.save_file, read_now; simpl.
    by destruct (add_upload (tables s) _ _ _ _) as [[new t']|].
Qed.

End upload_outcome.

(** X4. An upload that returns a uid has drawn it from [uuid4], saved the
    file's content under the upload folder as the generated name, and
    appended one job row: that uid, the original file name, pending, no
    finish time, the clock reading as upload time.  Without an email the
    job has no owner and no user is added; with an email the job belongs
    to the user the email resolves to afterwards, who is added only when
    the email resolved to nobody before. *)
Theorem upload_accepted (cfg : Config) (w : World)
  (request : server.UploadRequest) (s s' : System) (uid : string) :
  server.upload cfg w request s = (server.UidResponse uid, s') →
  ∃ file stored new,
    server.request_file request = Some file
    ∧ uid = uuid4 w (uuid_draws s)
    ∧ server.generate_filename cfg uid (server.file_filename file) = Some stored
    ∧ files s' = <[Py.path_join (UPLOAD_FOLDER cfg) stored :=
                     Blob (server.stream file)]> (files s)
    ∧ database.uploads (tables s') = (database.uploads (tables s) ++ [new])%list
    ∧ database.uid new = uid
    ∧ database.filename new = server.file_filename file
    ∧ database.status new = "pending"
    ∧ database.finish_time new = None
    ∧ database.upload_time new = datetime_now w (now_reads s)
    ∧ match server.form_email request with
      | None =>
          database.user_id new = None
          ∧ database.users (tables s') = database.users (tables s)
      | Some e =>
          ∃ user,
            database.user_by_email (tables s') e = Some user
            ∧ database.user_id new = Some (database.User_id user)
            ∧ (database.users (tables s') = database.users (tables s)
               ∨ (database.user_by_email (tables s) e = None
                  ∧ database.users (tables s')
                    = (database.users (tables s) ++ [user])%list))
      end.
Proof.
  intros Hup.
  destruct (server.request_file request) as [file|] eqn:Hfile;
    [|by unfold server.upload in Hup; rewrite Hfile in Hup].
  destruct (server.generate_filename cfg (uuid4 w (uuid_draws s))
              (server.file_filename file)) as [stored|] eqn:Hstored.
  2:{ unfold server.upload in Hup. rewrite Hfile in Hup.
      unfold draw_uuid in Hup. cbv zeta beta iota in Hup.
      by rewrite Hstored in Hup. }
  destruct (upload_with_file cfg w request s file stored Hfile Hstored)
    as (user & t & Huser & Heq).
  rewrite Heq in Hup. unfold database.add_upload in Hup.
  destruct (database.upload_by_uid t _) eqn:Hfresh; [done|].
  injection Hup as <- <-. simpl.
  assert (Hrows : database.uploads t = database.uploads (tables s)).
  { destruct (server.form_email request) as [e|]; destruct Huser as [_ ->];
      [|done].
    by destruct (create_user_resolves e (tables s)) as (_ & ? & _). }
  eexists file, stored, _. split_and!; try done.
  - by rewrite Hrows.
  - done.
  - done.
  - done.
  - done.
  - done.
  - destruct (server.form_email request) as [e|]; destruct Huser as [-> ->];
      simpl; [|done].
    destruct (create_user_resolves e (tables s)) as (Hres & _ & Husers).
    by exists (server.create_user e (tables s)).1.
Qed.

Lemma upload_accepted_witness :
  ∃ s' new,
    files s' !! "uploads/uid0.pptx" = Some (Blob "PPTX")
    ∧ database.uploads (tables s') = [new]
    ∧ database.filename new = "deck.pptx"
    ∧ database.status new = "pending".
Proof.
  assert (Hrun : ∃ s', server.upload spec_config demo.world
                         (demo.request_of "deck.pptx" "PPTX") (boot ∅)
                       = (server.UidResponse "uid0", s'))
    by (eexists; vm_compute; reflexivity).
  destruct Hrun as [s' Hrun].
  destruct (upload_accepted spec_config demo.world _ _ _ _ Hrun)
    as (file & stored & new & Hfile & _ & Hstored & Hfiles & Hrows & _ & Hname
        & Hstatus & _).
  injection Hfile as <-. injection Hstored as <-.
  exists s', new. split_and!; [|exact Hrows|exact Hname|exact Hstatus].
  rewrite Hfiles. reflexivity.
Defined.



(** ** Asking for the status *)

Section status_answers.

Import database.

Lemma upload_by_uid_app_new t rows new :
  uploads t = (rows ++ [new])%list →
  List.find (fun up => bool_decide (uid up = uid new)) rows = None →
  upload_by_uid t (uid new) = Some new.
Proof.
  intros Hrows Hfresh. unfold upload_by_uid.
  rewrite Hrows, find_app_None by done. simpl. by rewrite bool_decide_true.
Qed.

(** The answer for a job that is not done does not depend on the files. *)
Lemma prepare_response_not_done cfg w job s :
  status job ≠ "done" →
  (server.prepare_response cfg w (Some job) s).1
  = Ok {| server.r_status := Some (status job);
          server.r_filename := filename job;
          server.r_timestamp := upload_time job;
          server.r_explanation := JStr EmptyString;
          server.r_finish_time := finish_time job |}.
Proof.
  intros Hnot. unfold server.prepare_response, read_now; simpl.
  by rewrite bool_decide_false.
Qed.

Lemma status_unfold cfg w u s :
  (server.status cfg w u s).1
  = match upload_by_uid (tables s) u with
    | None => Ok server.NotFound
    | Some job => server.Found <$> (server.prepare_response cfg w (Some job) s).1
    end.
Proof.
  unfold server.status. destruct (upload_by_uid (tables s) u) as [job|]; [|done].
  by destruct (server.prepare_response cfg w (Some job) s).
Qed.



Lemma prepare_response_store cfg w job s :
  same_store s (server.prepare_response cfg w job s).2.
Proof. unfold server.prepare_response, read_now; simpl. by destruct job. Qed.

End status_answers.

(** X6. Right after an upload that returned a uid, the status endpoint
    answers for that uid with status 'pending', the original file name,
    the upload's clock reading, an empty explanation and no finish time. *)
Theorem status_after_upload (cfg : Config) (w : World)
  (request : server.UploadRequest) (s s' : System) (uid : string) :
  server.upload cfg w request s = (server.UidResponse uid, s') →
  ∃ file,
    server.request_file request = Some file
    ∧ (server.status cfg w uid s').1
      = Ok (server.Found
              {| server.r_status := Some "pending";
                 server.r_filename := server.file_filename file;
                 server.r_timestamp := datetime_now w (now_reads s);
                 server.r_explanation := JStr EmptyString;
                 server.r_finish_time := None |}).
Proof.
  intros Hup.
  pose proof Hup as Hacc. apply upload_accepted in Hacc
    as (file & stored & new & Hfile & Huid & _ & _ & Hrows & Hnew_uid & Hname
        & Hstatus & Hfinish & Htime & _).
  exists file. split; [done|].
  assert (Hfresh : database.upload_by_uid (tables s) uid = None).
  { destruct (database.upload_by_uid (tables s) uid) as [old|] eqn:Hold; [|done].
    assert (Hgrow : tables_grow w s (server.upload cfg w request s).2)
      by apply upload_grows.
    rewrite Hup in Hgrow. simpl in Hgrow.
    destruct Hgrow as (_ & nu & olds & added & _ & Hsplit & Hadv & Hadded).
    pose proof (Forall2_length _ _ _ Hadv) as Hlen.
    rewrite Hrows in Hsplit.
    destruct Hadded as [->|(new' & -> & (_ & _ & _ & _ & Hnone) & _)].
    - rewrite app_nil_r in Hsplit. rewrite <- Hsplit, length_app in Hlen.
      simpl in Hlen. lia.
    - apply app_inj_tail in Hsplit as [_ <-]. congruence. }
  rewrite status_unfold.
  rewrite <- Hnew_uid.
  rewrite (upload_by_uid_app_new (tables s') (database.uploads (tables s)) new)
    by (done || (rewrite Hnew_uid; exact Hfresh)).
  rewrite prepare_response_not_done by (by rewrite Hstatus).
  simpl. by rewrite Hstatus, Hname, Htime, Hfinish.
Qed.

Lemma status_after_upload_witness :
  ∃ s', (server.status spec_config demo.world "uid0" s').1
        = Ok (server.Found
                {| server.r_status := Some "pending";
                   server.r_filename := "deck.pptx";
                   server.r_timestamp := 1000;
                   server.r_explanation := JStr EmptyString;
                   server.r_finish_time := None |}).
Proof.
  assert (Hrun : ∃ s', server.upload spec_config demo.world
                         (demo.request_of "deck.pptx" "PPTX") (boot ∅)
                       = (server.UidResponse "uid0", s'))
    by (eexists; vm_compute; reflexivity).
  destruct Hrun as [s' Hrun]. exists s'.
  destruct (status_after_upload spec_config demo.world _ _ _ _ Hrun)
    as (file & Hfile & Hstatus).
  injection Hfile as <-. exact Hstatus.
Defined.

(** X7. The status endpoint answers 'not found' exactly when no job row
    has the uid, and then leaves the state untouched. *)
Theorem status_not_found (cfg : Config) (w : World) (u : string) (s : System) :
  ((server.status cfg w u s).1 = Ok server.NotFound
   ↔ ∀ job, job ∈ database.uploads (tables s) → database.uid job ≠ u)
  ∧ ((server.status cfg w u s).1 = Ok server.NotFound →
     (server.status cfg w u s).2 = s).
Proof.
  rewrite status_unfold. unfold server.status.
  destruct (database.upload_by_uid (tables s) u) as [job|] eqn:Hjob.
  - apply upload_by_uid_Some in Hjob as [Hin Huid]. split.
    + split.
      * by destruct (server.prepare_response cfg w (Some job) s).1.
      * intros Hnone. by destruct (Hnone job Hin).
    + by destruct (server.prepare_response cfg w (Some job) s).1.
  - split; [|done]. split; [|done]. intros _ job Hin Huid.
    apply upload_by_uid_None in Hjob. apply Hjob. rewrite <- Huid.
    apply list_elem_of_In, List.in_map. by apply list_elem_of_In.
Qed.

Lemma status_not_found_witness :
  (server.status spec_config demo.world "nonexistent-uid" demo.two_uploads).1
  = Ok server.NotFound.
Proof.
  apply (status_not_found spec_config demo.world "nonexistent-uid"
           demo.two_uploads).
  intros job Hjob. vm_compute in Hjob.
  apply elem_of_cons in Hjob as [->|Hjob]; [done|].
  apply list_elem_of_singleton in Hjob as ->. done.
Defined.



(** ** Files and result documents *)

Section files_and_documents.

Import database.

Lemma files_kept_refl s : files_kept s s.
Proof. by intros path. Qed.

Lemma files_kept_trans s1 s2 s3 :
  files_kept s1 s2 → files_kept s2 s3 → files_kept s1 s3.
Proof. intros H12 H23 path Hp. by apply H23, H12. Qed.

Lemma files_kept_insert s s' path content :
  files s' = <[path := content]> (files s) → files_kept s s'.
Proof.
  intros Heq p Hp. rewrite Heq. destruct (decide (path = p)) as [->|Hne].
  - rewrite lookup_insert_eq. by eexists.
  - by rewrite lookup_insert_ne.
Qed.

Lemma files_kept_same s s' : files s' = files s → files_kept s s'.
Proof. intros Heq path. by rewrite Heq. Qed.

(** What [process_upload_file] leaves behind: nothing, or the job's
    result document. *)
Lemma process_upload_file_files cfg fuel w u p s r s1 :
  explainer.process_upload_file cfg fuel w u p s = Ok (r, s1) →
  tables s1 = tables s
  ∧ uuid_draws s1 = uuid_draws s
  ∧ match r with
    | None => s1 = s
    | Some path =>
        path = document_path cfg u
        ∧ ∃ doc, files s1 = <[document_path cfg u := JsonText doc]> (files s)
    end.
Proof.
  unfold explainer.process_upload_file.
  destruct (isfile _ _ && _); [|by intros [= <- <-]].
  destruct (explainer.main fuel w (files s) p (effects s))
    as [[presentation e']| |]; [|by intros [= <- <-]|done].
  intros [= <- <-]. split_and!; [done|done|done|]. by eexists.
Qed.

Lemma update_upload_status_rows w u s x' :
  x' ∈ uploads (tables (explainer.update_upload_status w u s)) →
  x' ∈ uploads (tables s) ∨ ∃ now, x' = mark_done now u.
Proof.
  unfold explainer.update_upload_status, read_now, update_upload; simpl.
  intros (x & <- & Hx)%list_elem_of_In%List.in_map_iff.
  case_decide; [right; by eexists|left; by apply list_elem_of_In].
Qed.

Lemma process_pending_documents cfg fuel w rest s s' :
  explainer.process_pending cfg fuel w rest s = Ok s' →
  files_kept s s'
  ∧ uuid_draws s' = uuid_draws s
  ∧ (documents_exist cfg s → documents_exist cfg s').
Proof.
  revert s. induction rest as [|u rest IH]; intros s; simpl.
  - intros [= <-]. split_and!; [apply files_kept_refl|done|done].
  - destruct (explainer.process_upload_file cfg fuel w u _ s) as [[r s1]| |]
      eqn:Hfile; simpl; [|done..].
    apply process_upload_file_files in Hfile as (Htables & Hdraws & Hr).
    intros Hrun. apply IH in Hrun as (Hkept & Hdraws' & Hdocs).
    destruct r as [path|].
    + destruct Hr as (-> & doc & Hfiles).
      assert (Hk1 : files_kept s s1) by (by eapply files_kept_insert).
      destruct (Py.truthy (document_path cfg u)).
      * split_and!.
        -- eapply files_kept_trans; [exact Hk1|]. exact Hkept.
        -- by rewrite Hdraws'.
        -- intros Hs. apply Hdocs. intros x' Hx' Hdone.
           change (files (explainer.update_upload_status w u s1))
             with (files s1).
           apply update_upload_status_rows in Hx' as [Hold|[now ->]].
           ++ apply Hk1, Hs; [by rewrite <- Htables|done].
           ++ rewrite Hfiles. unfold document_path; simpl.
              rewrite lookup_insert_eq. by eexists.
      * split_and!.
        -- eapply files_kept_trans; [exact Hk1|]. exact Hkept.
        -- by rewrite Hdraws'.
        -- intros Hs. apply Hdocs. intros x' Hx' Hdone.
           apply Hk1, Hs; [by rewrite <- Htables|done].
    + subst s1. done.
Qed.

Lemma worker_pass_documents cfg fuel w s s' :
  explainer.worker_pass cfg fuel w s = Ok s' →
  files_kept s s'
  ∧ uuid_draws s' = uuid_draws s
  ∧ (documents_exist cfg s → documents_exist cfg s').
Proof.
  unfold explainer.worker_pass.
  destruct (uploads_by_status _ _) as [|u rest].
  - intros [= <-]. split_and!; [by intros path|done|done].
  - destruct (explainer.process_pending _ _ _ _ _) as [s1| |] eqn:Hrun;
      simpl; [|done..].
    intros [= <-]. by apply process_pending_documents in Hrun.
Qed.

(** What an upload does to rows and files, whatever its outcome. *)
Lemma upload_effect cfg w request s :
  (uploads (tables (server.upload cfg w request s).2) = uploads (tables s)
   ∨ ∃ new, uploads (tables (server.upload cfg w request s).2)
            = (uploads (tables s) ++ [new])%list
            ∧ status new = "pending"
            ∧ uid new = uuid4 w (uuid_draws s)
            ∧ uuid_draws (server.upload cfg w request s).2 = S (uuid_draws s))
  ∧ (uuid_draws s ≤ uuid_draws (server.upload cfg w request s).2)%nat
  ∧ files_kept s (server.upload cfg w request s).2.
Proof.
  destruct (server.request_file request) as [file|] eqn:Hfile.
  2:{ unfold server.upload. rewrite Hfile. simpl.
      split_and!; [by left|done|apply files_kept_refl]. }
  destruct (server.generate_filename cfg (uuid4 w (uuid_draws s))
              (server.file_filename file)) as [stored|] eqn:Hstored.
  2:{ unfold server.upload. rewrite Hfile. unfold draw_uuid.
      cbv zeta beta iota. rewrite Hstored. simpl.
      split_and!; [by left|lia|by intros path]. }
  destruct (upload_with_file cfg w request s file stored Hfile Hstored)
    as (user & t & Huser & ->).
  assert (Hrows : uploads t = uploads (tables s)).
  { destruct (server.form_email request) as [e|]; destruct Huser as [_ ->];
      [|done].
    by destruct (create_user_resolves e (tables s)) as (_ & ? & _). }
  unfold add_upload. destruct (upload_by_uid t _); simpl.
  - split_and!; [by left|lia|by eapply files_kept_insert].
  - split_and!; [|lia|by eapply files_kept_insert].
    right. eexists. rewrite Hrows. split_and!; done.
Qed.

End files_and_documents.

Section steps_and_files.

Import database.

Lemma status_store cfg w u s : same_store s (server.status cfg w u s).2.
Proof.
  unfold server.status. destruct (upload_by_uid _ _) as [job|]; [|done].
  pose proof (prepare_response_store cfg w (Some job) s).
  by destruct (server.prepare_response cfg w (Some job) s).
Qed.

Lemma get_latest_upload_store cfg w fn em s :
  same_store s (server.get_latest_upload cfg w fn em s).2.
Proof.
  unfold server.get_latest_upload.
  destruct (em ≫= user_by_email (tables s)) as [user|]; [|done].
  destruct (head _) as [latest|]; [|done].
  pose proof (prepare_response_store cfg w (Some latest) s).
  by destruct (server.prepare_response cfg w (Some latest) s).
Qed.

Lemma process_pending_skip cfg fuel w rest s :
  (∀ u, u ∈ rest → worker_finds cfg s u = false) →
  explainer.process_pending cfg fuel w rest s = Ok s.
Proof.
  induction rest as [|u rest IH]; intros Hskip; simpl; [done|].
  pose proof (Hskip u (list_elem_of_here _ _)) as Hu.
  unfold worker_finds in Hu. unfold explainer.process_upload_file.
  rewrite Hu. simpl. apply IH. intros u' Hu'.
  by apply Hskip, list_elem_of_further.
Qed.

End steps_and_files.

(** X9. No core operation removes a file: a path that is a file before a
    process start, a request or a worker pass is a file afterwards. *)
Theorem step_keeps_files (cfg : Config) (w : World) (ev : event) (s s' : System) :
  step cfg w ev s = Ok s' → files_kept s s'.
Proof.
  destruct ev; simpl.
  - by intros [= <-] path.
  - by intros [= <-] path.
  - intros [= <-]. apply upload_effect.
  - intros [= <-]. apply files_kept_same. symmetry. apply status_store.
  - intros [= <-]. apply files_kept_same. symmetry.
    apply get_latest_upload_store.
  - by intros (? & _)%worker_pass_documents.
Qed.

Lemma step_keeps_files_witness :
  is_Some (files demo.processed !! "uploads/uid0.pptx").
Proof.
  apply (step_keeps_files spec_config demo.world (WorkerPassEvent 5)
           demo.findable_upload demo.processed).
  - vm_compute. reflexivity.
  - vm_compute. by eexists.
Defined.

(** X10. In every reachable state each job that is done has a file at the
    path of its result document: the worker marks a job done only after
    it wrote the document, and nothing removes files. *)
Theorem done_jobs_have_documents (cfg : Config) (w : World) (s : System) :
  reachable cfg w s → documents_exist cfg s.
Proof.
  induction 1 as [f|s ev s' _ IH Hstep].
  - intros job Hjob. by apply elem_of_nil in Hjob.
  - destruct ev; simpl in Hstep.
    + injection Hstep as <-. intros job Hjob. by apply elem_of_nil in Hjob.
    + injection Hstep as <-. intros job Hjob. by apply elem_of_nil in Hjob.
    + injection Hstep as <-.
      destruct (upload_effect cfg w request s) as (Hrows & _ & Hkept).
      intros job Hjob Hdone.
      destruct Hrows as [Hsame|(new & Hnew & Hpending & _)].
      * rewrite Hsame in Hjob. by apply Hkept, IH.
      * rewrite Hnew in Hjob. apply elem_of_app in Hjob as [Hold|Hjob].
        -- by apply Hkept, IH.
        -- apply list_elem_of_singleton in Hjob as ->. congruence.
    + injection Hstep as <-.
      destruct (status_store cfg w uid s) as [Ht Hf].
      intros job Hjob Hdone. rewrite <- Hf. apply IH; [by rewrite Ht|done].
    + injection Hstep as <-.
      destruct (get_latest_upload_store cfg w filename email s) as [Ht Hf].
      intros job Hjob Hdone. rewrite <- Hf. apply IH; [by rewrite Ht|done].
    + apply worker_pass_documents in Hstep as (_ & _ & Hdocs). by apply Hdocs.
Qed.

Lemma done_jobs_have_documents_witness :
  is_Some (files demo.processed
             !! document_path spec_config (mark_done 1002 demo.findable_job)).
Proof.
  apply (done_jobs_have_documents spec_config demo.world demo.processed).
  - apply (steps_reachable spec_config demo.world
             [StartServer; demo.upload_of "a.pptx" "PPTX";
              demo.upload_of "uid0.pptx" "PPTX"; WorkerPassEvent 5] (boot ∅)).
    + apply reachable_boot.
    + vm_compute. reflexivity.
  - vm_compute. apply list_elem_of_further, list_elem_of_here.
  - reflexivity.
Defined.

(** X11. A worker pass in which no pending job is found (no file at the
    path made of its file name, or another extension) changes nothing but
    the log of sleeps: no row, no file, no API call, whatever the fuel. *)
Theorem worker_pass_without_files (cfg : Config) (fuel : nat) (w : World)
  (s : System) :
  (∀ job, job ∈ database.uploads (tables s) →
          database.status job = "pending" → worker_finds cfg s job = false) →
  explainer.worker_pass cfg fuel w s
  = Ok (with_effects (time_sleep 10 (effects s)) s).
Proof.
  intros Hskip. unfold explainer.worker_pass.
  rewrite process_pending_skip.
  - by destruct (database.uploads_by_status _ _).
  - intros u [Hu Hst]%list_elem_of_In%List.filter_In.
    apply Hskip; [by apply list_elem_of_In|]. by apply bool_decide_eq_true in Hst.
Qed.

Lemma worker_pass_without_files_witness :
  explainer.worker_pass spec_config 0 demo.world demo.two_uploads
  = Ok (with_effects (time_sleep 10 (effects demo.two_uploads)) demo.two_uploads).
Proof.
  apply (worker_pass_without_files spec_config 0 demo.world demo.two_uploads).
  intros job Hjob _. vm_compute in Hjob.
  apply elem_of_cons in Hjob as [->|Hjob]; [reflexivity|].
  apply list_elem_of_singleton in Hjob as ->. reflexivity.
Defined.

(** ** An API that always answers *)

Section responsive_api.

Import my_slide my_presentation explainer.

Lemma generate_explanation_responsive fuel w slide e :
  responsive w →
  generate_explanation (S fuel) w slide e
  = Ok (answer w (api_calls e) (construct_prompt slide), called e).
Proof.
  intros Hresp. unfold generate_explanation, answer; simpl.
  specialize (Hresp (api_calls e) (construct_prompt slide)).
  destruct (Completion_create w (api_calls e) (construct_prompt slide))
    as [[|] choices| | | |]; done.
Qed.

Lemma explain_slides_responsive fuel w items acc e :
  responsive w →
  explain_slides (S fuel) w items acc e
  = Ok ((acc ++ explained w (api_calls e) items)%list,
        {| api_calls := api_calls e + length items; sleeps := sleeps e |}).
Proof.
  intros Hresp. revert acc e.
  induction items as [|[n slide] items IH]; intros acc e.
  - simpl. rewrite app_nil_r, Nat.add_0_r. by destruct e.
  - cbn [explain_slides]. rewrite generate_explanation_responsive by done.
    cbn [mbind run_bind]. rewrite IH. simpl.
    rewrite <- app_assoc. simpl. do 3 f_equal. lia.
Qed.

Lemma parse_total w f path :
  parse w f (new path)
  = Ok {| filepath := path; explanations := None;
          slides := parsed_slides w f path |}.
Proof.
  unfold parse, parsed_slides; simpl.
  destruct (open_presentation w f path) as [prs|]; [|done].
  pose proof (parse_loop_entries prs [] (pptx.slides prs) [] eq_refl
                (List.Forall_nil _)) as Hloop.
  simpl in Hloop. by rewrite Hloop.
Qed.

Lemma main_responsive fuel w f path e :
  responsive w →
  main (S fuel) w f path e
  = Ok ({| filepath := path;
           explanations := Some (explained w (api_calls e) (parsed_slides w f path));
           slides := parsed_slides w f path |},
        {| api_calls := api_calls e + length (parsed_slides w f path);
           sleeps := sleeps e |}).
Proof.
  intros Hresp. unfold main. rewrite parse_total. cbn [mbind run_bind slides].
  by rewrite explain_slides_responsive.
Qed.

Lemma process_upload_file_responsive cfg fuel w u p s :
  responsive w →
  ∃ r s1, process_upload_file cfg (S fuel) w u p s = Ok (r, s1)
          ∧ sleeps (effects s1) = sleeps (effects s).
Proof.
  intros Hresp. unfold process_upload_file.
  destruct (isfile _ _ && _); [|by eexists _, _].
  rewrite main_responsive by done. by eexists _, _.
Qed.

Lemma process_pending_responsive cfg fuel w rest s :
  responsive w →
  ∃ s', process_pending cfg (S fuel) w rest s = Ok s'
        ∧ sleeps (effects s') = sleeps (effects s).
Proof.
  intros Hresp. revert s. induction rest as [|u rest IH]; intros s.
  - by exists s.
  - cbn [process_pending].
    destruct (process_upload_file_responsive cfg fuel w u
                (Py.path_join (UPLOAD_FOLDER cfg) (database.filename u)) s Hresp)
      as (r & s1 & -> & Hsleeps).
    cbn [mbind run_bind].
    set (s2 := match r with
               | Some path => if Py.truthy path then update_upload_status w u s1 else s1
               | None => s1
               end).
    assert (Hs2 : sleeps (effects s2) = sleeps (effects s1)).
    { subst s2. destruct r as [path|]; [|done]. by destruct (Py.truthy path). }
    destruct (IH s2) as (s' & -> & Hs'). exists s'. split; [done|]. congruence.
Qed.

End responsive_api.

(** X12. When no call of the API signals a rate limit or returns an empty
    response, [main] returns for any fuel but zero: it makes exactly one
    call per slide with text, in slide order, never sleeps, and each
    explanation is the trimmed first choice of its call, or the empty
    string when the call failed. *)
Theorem main_with_responsive_api (fuel : nat) (w : World) (f : gmap string file)
  (path : string) (e : Effects) :
  responsive w →
  explainer.main (S fuel) w f path e
  = Ok ({| my_presentation.filepath := path;
           my_presentation.explanations :=
             Some (explained w (api_calls e) (parsed_slides w f path));
           my_presentation.slides := parsed_slides w f path |},
        {| api_calls := api_calls e + length (parsed_slides w f path);
           sleeps := sleeps e |}).
Proof. apply main_responsive. Qed.

Lemma main_with_responsive_api_witness :
  explainer.main 1 demo.auth_world {["deck.pptx" := Blob "PPTX"]} "deck.pptx"
    {| api_calls := 0; sleeps := [] |}
  = Ok ({| my_presentation.filepath := "deck.pptx";
           my_presentation.explanations :=
             Some [{| my_presentation.slide_number := 1;
                      my_presentation.explanation := EmptyString |};
                   {| my_presentation.slide_number := 4;
                      my_presentation.explanation := EmptyString |}];
           my_presentation.slides := extractor_spec.entries demo.deck |},
        {| api_calls := 2; sleeps := [] |}).
Proof.
  rewrite (main_with_responsive_api 0 demo.auth_world
             {["deck.pptx" := Blob "PPTX"]} "deck.pptx"
             {| api_calls := 0; sleeps := [] |}).
  - reflexivity.
  - intros n prompt. exact I.
Defined.

(** X13. When no call of the API signals a rate limit or returns an empty
    response, a worker pass with any fuel but zero comes to its end, and
    the only sleep it adds is the 10 between passes. *)
Theorem worker_pass_terminates (cfg : Config) (fuel : nat) (w : World)
  (s : System) :
  responsive w →
  ∃ s', explainer.worker_pass cfg (S fuel) w s = Ok s'
        ∧ sleeps (effects s') = (sleeps (effects s) ++ [10])%list.
Proof.
  intros Hresp. unfold explainer.worker_pass.
  destruct (process_pending_responsive cfg fuel w
              (database.uploads_by_status (tables s) status_utils.STATUS_pending)
              s Hresp) as (s1 & Hrun & Hsleeps).
  destruct (database.uploads_by_status _ _) as [|u rest].
  - eexists. split; [done|]. done.
  - rewrite Hrun. eexists. split; [done|]. simpl. by rewrite Hsleeps.
Qed.

Lemma worker_pass_terminates_witness :
  ∃ s', explainer.worker_pass spec_config 1 demo.auth_world demo.findable_upload
        = Ok s'
        ∧ sleeps (effects s') = [10].
Proof.
  apply (worker_pass_terminates spec_config 0 demo.auth_world
           demo.findable_upload).
  intros n prompt. exact I.
Defined.

(** ** The two extension checks *)

Section extension_checks.

Lemma rev_app_app s1 s2 acc :
  String.rev_app (s1 ++ s2) acc = String.rev_app s2 (String.rev_app s1 acc).
Proof.
  revert acc. induction s1 as [|c s1 IH]; intros acc; [done|].
  change (String.rev_app (s1 ++ s2) (String c acc)
          = String.rev_app s2 (String.rev_app s1 (String c acc))).
  apply IH.
Qed.

Lemma rev_app_acc s acc : String.rev_app s acc = String.rev_app s "" ++ acc.
Proof.
  revert acc. induction s as [|c s IH]; intros acc; [done|].
  simpl. rewrite (IH (String c acc)), (IH (String c "")).
  by rewrite string_app_assoc.
Qed.

Lemma endswith_app s suffix : Py.endswith (s ++ suffix) suffix = true.
Proof.
  unfold Py.endswith, String.rev.
  rewrite rev_app_app, (rev_app_acc suffix (String.rev_app s "")).
  apply startswith_app.
Qed.

Lemma rfind_from_app c s1 s2 i found :
  Py.rfind_from c (s1 ++ s2) i found
  = Py.rfind_from c s2 (i + Z.of_nat (String.length s1))
      (Py.rfind_from c s1 i found).
Proof.
  revert i found. induction s1 as [|a s1 IH]; intros i found.
  - simpl. by rewrite Z.add_0_r.
  - change (Py.rfind_from c (s1 ++ s2) (i + 1) (if decide (a = c) then i else found)
            = Py.rfind_from c s2 (i + Z.of_nat (String.length (String a s1)))
                (Py.rfind_from c s1 (i + 1) (if decide (a = c) then i else found))).
    rewrite IH. f_equal. simpl. lia.
Qed.

Lemma rfind_from_absent c s i found :
  count_char c s = 0%nat → Py.rfind_from c s i found = found.
Proof.
  revert i found. induction s as [|a s IH]; intros i found; simpl; [done|].
  case_decide; [done|]. simpl. apply IH.
Qed.

Lemma take_app s1 s2 : Py.take (String.length s1) (s1 ++ s2) = s1.
Proof.
  induction s1 as [|a s1 IH]; simpl; [by destruct s2|].
  change (String a (Py.take (String.length s1) (s1 ++ s2)) = String a s1).
  by rewrite IH.
Qed.

Lemma drop_app s1 s2 : Py.drop (String.length s1) (s1 ++ s2) = s2.
Proof. induction s1 as [|a s1 IH]; simpl; [done|]. exact IH. Qed.

Lemma count_char_app c s1 s2 :
  count_char c (s1 ++ s2) = (count_char c s1 + count_char c s2)%nat.
Proof.
  induction s1 as [|a s1 IH]; [done|].
  change (((if decide (a = c) then 1 else 0) + count_char c (s1 ++ s2))%nat
          = ((if decide (a = c) then 1 else 0) + count_char c s1
             + count_char c s2)%nat).
  rewrite IH. lia.
Qed.

(** [splitext] on a name made of a stem, a dot and a dot-free rest. *)
Lemma splitext_name stem rest :
  count_char "/" stem = 0%nat → count_char "/" rest = 0%nat →
  count_char "." rest = 0%nat →
  Py.splitext (stem ++ "." ++ rest)
  = if Py.all_char "." stem then (stem ++ "." ++ rest, EmptyString)
    else (stem, "." ++ rest).
Proof.
  intros Hstem Hrest Hdot. unfold Py.splitext, Py.rfind.
  assert (Hsep : Py.rfind_from "/" (stem ++ "." ++ rest) 0 (-1) = -1).
  { apply rfind_from_absent. rewrite !count_char_app, Hstem, Hrest. done. }
  assert (Hdotidx : Py.rfind_from "." (stem ++ "." ++ rest) 0 (-1)
                    = Z.of_nat (String.length stem)).
  { rewrite rfind_from_app. simpl. by rewrite rfind_from_absent. }
  rewrite Hsep, Hdotidx.
  rewrite (proj2 (Z.ltb_lt _ _)) by lia.
  replace (Z.to_nat (-1 + 1)) with 0%nat by lia.
  replace (Z.to_nat (Z.of_nat (String.length stem) - (-1 + 1)))
    with (String.length stem) by lia.
  rewrite Nat2Z.id. simpl Py.drop at 1.
  by rewrite take_app, drop_app.
Qed.

End extension_checks.

(** X14. For a name that is a stem without slashes followed by [.pptx],
    the client's check accepts the name, and the extension the worker
    compares is [.pptx] unless the stem is nothing but dots, in which
    case it is empty.  With [.PPTX] in capitals the worker compares the
    same, while the client's check rejects the name. *)
Theorem extension_checks_differ (stem : string) :
  count_char "/" stem = 0%nat →
  client.is_valid_filepath (Some (stem ++ ".pptx")) = true
  ∧ client.is_valid_filepath (Some (stem ++ ".PPTX")) = false
  ∧ Py.lower (Py.splitext (stem ++ ".pptx")).2
    = (if Py.all_char "." stem then EmptyString else ".pptx")
  ∧ Py.lower (Py.splitext (stem ++ ".PPTX")).2
    = (if Py.all_char "." stem then EmptyString else ".pptx").
Proof.
  intros Hstem. split_and!.
  - unfold client.is_valid_filepath. by rewrite endswith_app.
  - unfold client.is_valid_filepath, Py.endswith, String.rev.
    by rewrite rev_app_app, (rev_app_acc ".PPTX" (String.rev_app stem "")).
  - change (stem ++ ".pptx") with (stem ++ "." ++ "pptx").
    rewrite (splitext_name stem "pptx") by done.
    by destruct (Py.all_char "." stem).
  - change (stem ++ ".PPTX") with (stem ++ "." ++ "PPTX").
    rewrite (splitext_name stem "PPTX") by done.
    by destruct (Py.all_char "." stem).
Qed.

Lemma extension_checks_differ_witness :
  client.is_valid_filepath (Some ".pptx") = true
  ∧ Py.lower (Py.splitext ".pptx").2 = EmptyString
  ∧ client.is_valid_filepath (Some "deck.PPTX") = false
  ∧ Py.lower (Py.splitext "deck.PPTX").2 = ".pptx".
Proof.
  destruct (extension_checks_differ "") as (Hclient & _ & Hworker & _);
    [reflexivity|].
  destruct (extension_checks_differ "deck") as (_ & Hclient' & _ & Hworker');
    [reflexivity|].
  split_and!; [exact Hclient|exact Hworker|exact Hclient'|exact Hworker'].
Defined.

(** ** Keys, emails and uids *)

Section keys.

Import database.

Lemma create_user_new e t :
  user_by_email t e = None →
  server.create_user e t
  = ({| User_id := next_id (map User_id (users t)); email := e |},
     {| users := (users t ++ [{| User_id := next_id (map User_id (users t));
                                 email := e |}])%list;
        uploads := uploads t |}).
Proof. unfold server.create_user. by intros ->. Qed.

(** What an upload does to the user table. *)
Lemma upload_users cfg w request s :
  users (tables (server.upload cfg w request s).2) = users (tables s)
  ∨ ∃ e, user_by_email (tables s) e = None
         ∧ users (tables (server.upload cfg w request s).2)
           = (users (tables s)
              ++ [{| User_id := next_id (map User_id (users (tables s)));
                     email := e |}])%list.
Proof.
  destruct (server.request_file request) as [file|] eqn:Hfile.
  2:{ unfold server.upload. rewrite Hfile. by left. }
  destruct (server.generate_filename cfg (uuid4 w (uuid_draws s))
              (server.file_filename file)) as [stored|] eqn:Hstored.
  2:{ unfold server.upload. rewrite Hfile. unfold draw_uuid.
      cbv zeta beta iota. rewrite Hstored. by left. }
  destruct (upload_with_file cfg w request s file stored Hfile Hstored)
    as (user & t & Huser & ->).
  unfold add_upload. destruct (upload_by_uid t _); simpl; [by left|].
  destruct (server.form_email request) as [e|]; destruct Huser as [_ ->];
    [|by left].
  destruct (user_by_email (tables s) e) as [old|] eqn:Hold.
  - left. unfold server.create_user. by rewrite Hold.
  - right. exists e. split; [done|]. by rewrite create_user_new.
Qed.

Lemma user_by_email_None_map t e :
  user_by_email t e = None → e ∉ map email (users t).
Proof.
  intros Hnone Hin%list_elem_of_In%List.in_map_iff.
  destruct Hin as (x & Hx & Hin).
  pose proof (List.find_none _ _ Hnone x Hin) as Hfalse. simpl in Hfalse.
  by apply bool_decide_eq_false in Hfalse.
Qed.

Lemma process_pending_users cfg fuel w rest s s' :
  explainer.process_pending cfg fuel w rest s = Ok s' →
  users (tables s') = users (tables s).
Proof.
  revert s. induction rest as [|u rest IH]; intros s; simpl.
  - by intros [= <-].
  - destruct (explainer.process_upload_file cfg fuel w u _ s) as [[r s1]| |]
      eqn:Hfile; simpl; [|done..].
    apply process_upload_file_tables in Hfile as [Htables _].
    intros ->%IH. destruct r as [path|]; [|by rewrite Htables].
    destruct (Py.truthy path); by rewrite <- Htables.
Qed.

Lemma worker_pass_users cfg fuel w s s' :
  explainer.worker_pass cfg fuel w s = Ok s' →
  users (tables s') = users (tables s).
Proof.
  unfold explainer.worker_pass.
  destruct (uploads_by_status _ _) as [|u rest].
  - by intros [= <-].
  - destruct (explainer.process_pending _ _ _ _ _) as [s1| |] eqn:Hrun;
      simpl; [|done..].
    intros [= <-]. by apply process_pending_users in Hrun.
Qed.

Lemma users_ok_step cfg w ev s s' :
  users_ok s → step cfg w ev s = Ok s' → users_ok s'.
Proof.
  intros [Hids Hemails]. destruct ev as [| |request|u|fn em|fuel]; simpl.
  - intros [= <-]. split; constructor.
  - intros [= <-]. split; constructor.
  - intros [= <-]. unfold users_ok.
    destruct (upload_users cfg w request s) as [->|(e & Hnew & ->)]; [done|].
    rewrite !map_app. simpl. split.
    + apply NoDup_app. split_and!; [done| |apply NoDup_singleton].
      intros x Hx ->%list_elem_of_singleton. apply next_id_above in Hx. lia.
    + apply NoDup_app. split_and!; [done| |apply NoDup_singleton].
      intros x Hx ->%list_elem_of_singleton.
      by apply user_by_email_None_map in Hnew.
  - intros [= <-]. unfold users_ok.
    by destruct (status_store cfg w u s) as [<- _].
  - intros [= <-]. unfold users_ok.
    by destruct (get_latest_upload_store cfg w fn em s) as [<- _].
  - intros Hrun%worker_pass_users. unfold users_ok. by rewrite Hrun.
Qed.

Lemma worker_pass_rows cfg fuel w s s' :
  NoDup (map Upload_id (uploads (tables s))) →
  explainer.worker_pass cfg fuel w s = Ok s' →
  Forall2 same_job (uploads (tables s)) (uploads (tables s')).
Proof.
  intros Hnd. unfold explainer.worker_pass.
  assert (Hpass : ∀ s1,
            explainer.process_pending cfg fuel w
              (uploads_by_status (tables s) status_utils.STATUS_pending) s = Ok s1 →
            Forall2 same_job (uploads (tables s)) (uploads (tables s1))).
  { intros s1 Hrun. apply process_pending_advance in Hrun as (_ & _ & Hadv).
    - eapply Forall2_impl; [exact Hadv|]. intros x y. apply advance_same_job.
    - done.
    - by apply NoDup_map_filter.
    - intros u [Hu Hst]%list_elem_of_In%List.filter_In.
      split; [by apply list_elem_of_In|]. by apply bool_decide_eq_true in Hst. }
  destruct (uploads_by_status _ _) as [|u rest] eqn:Hpending.
  - intros [= <-]. apply Forall2_same_length_lookup. split; [done|].
    intros i x y Hx Hy. simpl in Hy. by simplify_eq.
  - destruct (explainer.process_pending _ _ _ _ _) as [s1| |] eqn:Hrun;
      simpl; [|done..].
    intros [= <-]. by apply (Hpass s1).
Qed.

Lemma prepare_response_draws cfg w job s :
  uuid_draws (server.prepare_response cfg w job s).2 = uuid_draws s.
Proof. unfold server.prepare_response, read_now; simpl. by destruct job. Qed.

Lemma status_draws cfg w u s :
  uuid_draws (server.status cfg w u s).2 = uuid_draws s.
Proof.
  unfold server.status. destruct (upload_by_uid _ _) as [job|]; [|done].
  pose proof (prepare_response_draws cfg w (Some job) s).
  by destruct (server.prepare_response cfg w (Some job) s).
Qed.

Lemma get_latest_upload_draws cfg w fn em s :
  uuid_draws (server.get_latest_upload cfg w fn em s).2 = uuid_draws s.
Proof.
  unfold server.get_latest_upload.
  destruct (em ≫= user_by_email (tables s)) as [user|]; [|done].
  destruct (head _) as [latest|]; [|done].
  pose proof (prepare_response_draws cfg w (Some latest) s).
  by destruct (server.prepare_response cfg w (Some latest) s).
Qed.

Lemma uids_drawn_step cfg w ev s s' :
  table_ok w s → uids_drawn w s → step cfg w ev s = Ok s' → uids_drawn w s'.
Proof.
  intros Hok Hdrawn. destruct ev as [| |request|u|fn em|fuel]; simpl.
  - intros [= <-] job Hjob. by apply elem_of_nil in Hjob.
  - intros [= <-] job Hjob. by apply elem_of_nil in Hjob.
  - intros [= <-] job Hjob.
    destruct (upload_effect cfg w request s) as (Hrows & Hle & _).
    destruct Hrows as [Hsame|(new & Hnew & _ & Huid & Hdraws)].
    + rewrite Hsame in Hjob. destruct (Hdrawn job Hjob) as (i & Hi & Hu).
      exists i. split; [lia|done].
    + rewrite Hnew in Hjob. apply elem_of_app in Hjob as [Hold|Hjob].
      * destruct (Hdrawn job Hold) as (i & Hi & Hu). exists i. split; [lia|done].
      * apply list_elem_of_singleton in Hjob as ->.
        exists (uuid_draws s). split; [lia|done].
  - intros [= <-] job Hjob. rewrite status_draws.
    destruct (status_store cfg w u s) as [Ht _]. rewrite <- Ht in Hjob.
    by apply Hdrawn.
  - intros [= <-] job Hjob. rewrite get_latest_upload_draws.
    destruct (get_latest_upload_store cfg w fn em s) as [Ht _].
    rewrite <- Ht in Hjob. by apply Hdrawn.
  - intros Hrun job Hjob.
    pose proof (worker_pass_documents _ _ _ _ _ Hrun) as (_ & -> & _).
    apply worker_pass_rows in Hrun; [|apply Hok].
    apply list_elem_of_lookup in Hjob as [i Hi].
    destruct (Forall2_lookup_r _ _ _ _ _ Hrun Hi) as (x & Hx & Hsame).
    destruct (Hdrawn x) as (k & Hk & Hu); [by eapply list_elem_of_lookup_2|].
    exists k. split; [done|]. destruct Hsame as (_ & <- & _). done.
Qed.

Lemma reachable_users_uids cfg w s :
  reachable cfg w s → users_ok s ∧ uids_drawn w s.
Proof.
  induction 1 as [f|s ev s' Hreach [IHu IHd] Hstep].
  - split; [split; constructor|]. intros job Hjob. by apply elem_of_nil in Hjob.
  - split; [by eapply users_ok_step|].
    eapply uids_drawn_step; [|done|done]. by eapply reachable_ok.
Qed.

End keys.

(** X15. In every reachable state no two job rows share a key or a uid,
    and no two user rows share a key or an email. *)
Theorem reachable_rows_distinct (cfg : Config) (w : World) (s : System) :
  reachable cfg w s →
  NoDup (map database.Upload_id (database.uploads (tables s)))
  ∧ NoDup (map database.uid (database.uploads (tables s)))
  ∧ NoDup (map database.User_id (database.users (tables s)))
  ∧ NoDup (map database.email (database.users (tables s))).
Proof.
  intros Hreach.
  destruct (reachable_ok _ _ _ Hreach) as (Hids & Huids & _).
  destruct (reachable_users_uids _ _ _ Hreach) as [[Hu He] _]. done.
Qed.

Lemma reachable_rows_distinct_witness :
  NoDup (map database.email (database.users (tables demo.two_uploads))).
Proof.
  apply (reachable_rows_distinct spec_config demo.world demo.two_uploads).
  apply (steps_reachable spec_config demo.world
           [StartServer; demo.upload_of "deck.pptx" "PPTX";
            demo.upload_of "deck.pptx" "PPTX"] (boot ∅)).
  - apply reachable_boot.
  - vm_compute. reflexivity.
Defined.



(** X17. With a clock that moves on between readings, right after an
    upload with an email that returned a uid, [get_latest_upload] for that
    email and the uploaded file's name answers for the job just created:
    pending, with the upload's clock reading, whatever older jobs of the
    same user and name there are. *)
Theorem latest_after_upload (cfg : Config) (w : World)
  (request : server.UploadRequest) (s s' : System) (uid e : string)
  (file : server.FileStorage) :
  strict_clock w → reachable cfg w s →
  server.upload cfg w request s = (server.UidResponse uid, s') →
  server.request_file request = Some file →
  server.form_email request = Some e →
  (server.get_latest_upload cfg w (Some (server.file_filename file)) (Some e) s').1
  = Ok (server.Found
          {| server.r_status := Some "pending";
             server.r_filename := server.file_filename file;
             server.r_timestamp := datetime_now w (now_reads s);
             server.r_explanation := JStr EmptyString;
             server.r_finish_time := None |}).
Proof.
  intros Hclock Hreach Hup Hfile He.
  destruct (server.generate_filename cfg (uuid4 w (uuid_draws s))
              (server.file_filename file)) as [stored|] eqn:Hstored.
  2:{ unfold server.upload in Hup. rewrite Hfile in Hup.
      unfold draw_uuid in Hup. cbv zeta beta iota in Hup.
      by rewrite Hstored in Hup. }
  destruct (upload_with_file cfg w request s file stored Hfile Hstored)
    as (user & t & Huser & Heq).
  rewrite He in Huser. destruct Huser as [-> ->].
  destruct (create_user_resolves e (tables s)) as (Hres & Hrows & _).
  set (owner := (server.create_user e (tables s)).1) in *.
  set (t := (server.create_user e (tables s)).2) in *.
  rewrite Heq in Hup. unfold database.add_upload in Hup.
  destruct (database.upload_by_uid t _) eqn:Hfresh; [done|].
  injection Hup as _ <-.
  set (new := {| database.Upload_id := _ |}).
  rewrite get_latest_upload_unfold. cbn [tables].
  assert (Howner : database.user_by_email
                     {| database.users := database.users t;
                        database.uploads := (database.uploads t ++ [new])%list |} e
                   = Some owner) by exact Hres.
  rewrite Howner.
  assert (Hmine : database.uploads_of
                    {| database.users := database.users t;
                       database.uploads := (database.uploads t ++ [new])%list |}
                    owner (server.file_filename file)
                  = (database.uploads_of t owner (server.file_filename file)
                     ++ [new])%list).
  { unfold database.uploads_of; simpl. rewrite List.filter_app. simpl.
    by rewrite !bool_decide_true. }
  rewrite Hmine.
  pose proof (head_order_by_desc
                (database.uploads_of t owner (server.file_filename file) ++ [new]))
    as Hhead.
  destruct (head _) as [latest|];
    [|by destruct (database.uploads_of t owner (server.file_filename file))].
  destruct Hhead as [Hin Hmax].
  assert (latest = new) as ->.
  { apply elem_of_app in Hin as [Hold|Hnew];
      [|by apply list_elem_of_singleton in Hnew].
    exfalso. apply uploads_of_elem in Hold as [Hold _]. rewrite Hrows in Hold.
    destruct (reachable_ok _ _ _ Hreach) as (_ & _ & Hok).
    rewrite Forall_forall in Hok.
    destruct (Hok latest Hold) as (i & Hi & Htime & _).
    specialize (Hmax new). rewrite Htime in Hmax.
    specialize (Hclock i (now_reads s) Hi).
    assert (Hnew : new ∈ (database.uploads_of t owner (server.file_filename file)
                          ++ [new])%list)
      by (apply elem_of_app; right; apply list_elem_of_here).
    apply Hmax in Hnew. simpl in Hnew. lia. }
  by rewrite prepare_response_not_done.
Qed.

Lemma latest_after_upload_witness :
  ∃ s',
    (server.get_latest_upload spec_config demo.world (Some "deck.pptx")
       (Some "naruto@gmail.com") s').1
    = Ok (server.Found
            {| server.r_status := Some "pending";
               server.r_filename := "deck.pptx";
               server.r_timestamp := 1002;
               server.r_explanation := JStr EmptyString;
               server.r_finish_time := None |}).
Proof.
  assert (Hrun : ∃ s', server.upload spec_config demo.world
                         {| server.request_file :=
                              Some {| server.file_filename := "deck.pptx";
                                      server.stream := "PPTX" |};
                            server.form_email := Some "naruto@gmail.com" |}
                         demo.two_uploads
                       = (server.UidResponse "uid2", s'))
    by (eexists; vm_compute; reflexivity).
  destruct Hrun as [s' Hrun]. exists s'.
  apply (latest_after_upload spec_config demo.world
           {| server.request_file :=
                Some {| server.file_filename := "deck.pptx";
                        server.stream := "PPTX" |};
              server.form_email := Some "naruto@gmail.com" |}
           demo.two_uploads s' "uid2" "naruto@gmail.com"
           {| server.file_filename := "deck.pptx"; server.stream := "PPTX" |}).
  - intros i j Hij. simpl. lia.
  - apply (steps_reachable spec_config demo.world
             [StartServer; demo.upload_of "deck.pptx" "PPTX";
              demo.upload_of "deck.pptx" "PPTX"] (boot ∅)).
    + apply reachable_boot.
    + vm_compute. reflexivity.
  - exact Hrun.
  - reflexivity.
  - reflexivity.
Defined.

(** ** The client's status requests *)

(** X18. For the server's answer to an unknown uid or to an unknown user
    or file name (code 200, status 'not found' and nothing else), the
    client's [status] raises, because the answer has no timestamp, while
    the client's [get_latest_upload] returns a status 'not found' with the
    asked file name, its own clock reading and an empty explanation. *)
Theorem client_on_not_found (cu : ClientUtils) (fn : json) (now : Z) :
  RETURN_ok cu = 200 → RETURN_page_not_found cu ≠ 200 →
  SystemClient.status cu (flask.respond (Ok server.NotFound)) = Raised
  ∧ SystemClient.get_latest_upload cu fn now (flask.respond (Ok server.NotFound))
    = Ok {| Status.status := JStr "not found";
            Status.filename := fn;
            Status.timestamp := now;
            Status.explanation := JStr EmptyString |}.
Proof.
  intros Hok Hnf.
  unfold SystemClient.status, SystemClient.get_latest_upload,
    SystemClient.make_status_request; simpl.
  rewrite Hok. rewrite decide_False by congruence.
  rewrite (decide_False (P := 200 ≠ 200)) by (intros H; by apply H).
  done.
Qed.

Lemma client_on_not_found_witness :
  SystemClient.status spec_client_utils
    (flask.respond (server.status spec_config demo.world "nonexistent-uid"
                      demo.two_uploads).1)
  = Raised.
Proof.
  apply (client_on_not_found spec_client_utils JNull 0); [reflexivity|done].
Defined.

(** X19. For the server's answer for a job, the client's [status] returns
    the job's status, file name, upload time and explanation as the
    endpoint prepared them, and [is_done] holds exactly when that status
    is the one the client takes for done; when the endpoint raised, the
    client raises. *)
Theorem client_status_of_job (cu : ClientUtils) (r : server.Response)
  (st : string) :
  RETURN_ok cu = 200 → RETURN_page_not_found cu ≠ 200 →
  server.r_status r = Some st →
  SystemClient.status cu (flask.respond (Ok (server.Found r)))
  = Ok {| Status.status := JStr st;
          Status.filename := JStr (server.r_filename r);
          Status.timestamp := server.r_timestamp r;
          Status.explanation := server.r_explanation r |}
  ∧ (∀ status, SystemClient.status cu (flask.respond (Ok (server.Found r)))
               = Ok status →
               Status.is_done cu status = true ↔ st = PROCESS_DONE cu)
  ∧ SystemClient.status cu (flask.respond Raised) = Raised.
Proof.
  intros Hok Hnf Hst.
  assert (Hrun : SystemClient.status cu (flask.respond (Ok (server.Found r)))
                 = Ok {| Status.status := JStr st;
                         Status.filename := JStr (server.r_filename r);
                         Status.timestamp := server.r_timestamp r;
                         Status.explanation := server.r_explanation r |}).
  { unfold SystemClient.status, SystemClient.make_status_request; simpl.
    rewrite Hok. rewrite decide_False by congruence.
    rewrite (decide_False (P := 200 ≠ 200)) by (intros H; by apply H).
    simpl. by rewrite Hst. }
  split_and!; [done| |].
  - intros status. rewrite Hrun. intros [= <-].
    unfold Status.is_done; simpl. by rewrite bool_decide_eq_true.
  - unfold SystemClient.status, SystemClient.make_status_request; simpl.
    case_decide; [done|]. rewrite Hok. by rewrite decide_True.
Qed.

Lemma client_status_of_job_witness :
  ∃ status,
    SystemClient.status spec_client_utils
      (flask.respond (server.status spec_config demo.world "uid1" demo.processed).1)
    = Ok status
    ∧ Status.is_done spec_client_utils status = true.
Proof.
  destruct (client_status_of_job spec_client_utils
              {| server.r_status := Some "done";
                 server.r_filename := "uid0.pptx";
                 server.r_timestamp := 1001;
                 server.r_explanation :=
                   JArr [JArr [JNum 1; JStr "about: Slide 1"];
                         JArr [JNum 4; JStr "about: Slide 4"]];
                 server.r_finish_time := Some 1002 |} "done")
    as (Hrun & Hdone & _); [reflexivity|done|reflexivity|].
  eexists. split; [exact Hrun|]. by apply (Hdone _ Hrun).
Defined.

(** ** What a pass achieves *)

Section pass_achieves.

Import database.

Lemma worker_finds_kept cfg s s' u :
  files_kept s s' → worker_finds cfg s u = true → worker_finds cfg s' u = true.
Proof.
  unfold worker_finds, isfile.
  intros Hkept [Hfile Hext]%andb_true_iff. apply andb_true_iff. split; [|done].
  apply bool_decide_eq_true in Hfile. apply bool_decide_eq_true. by apply Hkept.
Qed.

(** A row survives the updates of rows with other keys. *)
Lemma update_upload_other t up x :
  x ∈ uploads t → Upload_id x ≠ Upload_id up → x ∈ uploads (update_upload t up).
Proof.
  intros Hx Hne. unfold update_upload; simpl.
  apply list_elem_of_In, List.in_map_iff. exists x.
  split; [by rewrite decide_False|by apply list_elem_of_In].
Qed.

Lemma process_pending_keeps cfg fuel w rest s s' x :
  (∀ u, u ∈ rest → Upload_id u ≠ Upload_id x) →
  x ∈ uploads (tables s) →
  explainer.process_pending cfg fuel w rest s = Ok s' →
  x ∈ uploads (tables s').
Proof.
  revert s. induction rest as [|u rest IH]; intros s Hother Hx; simpl.
  - by intros [= <-].
  - destruct (explainer.process_upload_file cfg fuel w u _ s) as [[r s1]| |]
      eqn:Hfile; simpl; [|done..].
    apply process_upload_file_tables in Hfile as [Htables _].
    apply IH; [intros u' Hu'; by apply Hother, list_elem_of_further|].
    destruct r as [path|]; [|by rewrite Htables].
    destruct (Py.truthy path); [|by rewrite Htables].
    destruct (update_upload_status_tables w u s1) as [-> _].
    apply update_upload_other; [by rewrite Htables|].
    intros Heq. by apply (Hother u (list_elem_of_here _ _)).
Qed.

(** The generator catches every exception of the API call. *)
Lemma request_loop_not_raised fuel w prompt e :
  my_slide.request_loop fuel w prompt e ≠ Raised.
Proof.
  revert e. induction fuel as [|fuel IH]; intros e; simpl; [done|].
  destruct (Completion_create w (api_calls e) prompt) as [[|] ?| | | |];
    try done; apply IH.
Qed.

Lemma explain_slides_not_raised fuel w items acc e :
  explainer.explain_slides fuel w items acc e ≠ Raised.
Proof.
  revert acc e. induction items as [|[n slide] items IH]; intros acc e; simpl;
    [done|].
  unfold my_slide.generate_explanation.
  pose proof (request_loop_not_raised fuel w (my_slide.construct_prompt slide) e).
  destruct (my_slide.request_loop _ _ _ _) as [[reply e1]| |]; simpl;
    [apply IH|done|done].
Qed.

Lemma process_pending_marks cfg fuel w rest s s' u :
  NoDup (map Upload_id rest) →
  explainer.process_pending cfg fuel w rest s = Ok s' →
  u ∈ rest → (∀ u', u' ∈ rest → u' ∈ uploads (tables s)) →
  worker_finds cfg s u = true →
  Py.truthy (document_path cfg u) = true →
  ∃ now, mark_done now u ∈ uploads (tables s').
Proof.
  revert s. induction rest as [|u0 rest IH]; intros s Hnd Hrun Hu Hrows Hfinds Hpath.
  - by apply elem_of_nil in Hu.
  - cbn [map] in Hnd. apply NoDup_cons in Hnd as [Hfresh Hnd]. simpl in Hrun.
    destruct (explainer.process_upload_file cfg fuel w u0 _ s) as [[r s1]| |]
      eqn:Hfile; simpl in Hrun; [|done..].
    pose proof (process_upload_file_files _ _ _ _ _ _ _ _ Hfile)
      as (Htables & _ & Hr).
    assert (Hkept1 : files_kept s s1).
    { destruct r as [path|]; [|subst s1; apply files_kept_refl].
      destruct Hr as (_ & doc & Hdoc). by eapply files_kept_insert. }
    apply elem_of_cons in Hu as [->|Hu].
    + unfold explainer.process_upload_file in Hfile.
      unfold worker_finds in Hfinds. rewrite Hfinds in Hfile.
      destruct (explainer.main fuel w (files s) _ (effects s))
        as [[presentation e']| |] eqn:Hmain; [| |done].
      2:{ unfold explainer.main in Hmain. rewrite parse_total in Hmain.
          simpl in Hmain.
          destruct (explainer.explain_slides _ _ _ _ _) as [[? ?]| |] eqn:Hex;
            [done| |done].
          by apply explain_slides_not_raised in Hex. }
      injection Hfile as <- <-. unfold document_path in Hpath.
      rewrite Hpath in Hrun.
      set (s2 := explainer.update_upload_status w u0 _) in Hrun.
      exists (datetime_now w (now_reads s)).
      eapply process_pending_keeps; [|  |exact Hrun].
      * intros u' Hu' Heq. apply Hfresh. simpl in Heq. rewrite <- Heq.
        apply list_elem_of_In, List.in_map. by apply list_elem_of_In.
      * subst s2. unfold explainer.update_upload_status, read_now, update_upload.
        simpl. apply list_elem_of_In, List.in_map_iff. exists u0.
        split; [by rewrite decide_True|].
        apply list_elem_of_In, Hrows, list_elem_of_here.
    + set (s2 := match r with
                 | Some path =>
                     if Py.truthy path then explainer.update_upload_status w u0 s1
                     else s1
                 | None => s1
                 end) in Hrun.
      assert (Hne : ∀ u', u' ∈ rest → Upload_id u' ≠ Upload_id u0).
      { intros u' Hu' Heq. apply Hfresh. rewrite <- Heq.
        apply list_elem_of_In, List.in_map. by apply list_elem_of_In. }
      assert (Hs2 : files s2 = files s1
                    ∧ ∀ u', u' ∈ rest → u' ∈ uploads (tables s2)).
      { subst s2. destruct r as [path|].
        - destruct (Py.truthy path).
          + split; [done|]. intros u' Hu'.
            destruct (update_upload_status_tables w u0 s1) as [-> _].
            apply update_upload_other; [|by apply Hne].
            rewrite Htables. by apply Hrows, list_elem_of_further.
          + split; [done|]. intros u' Hu'. rewrite Htables.
            by apply Hrows, list_elem_of_further.
        - split; [done|]. intros u' Hu'. rewrite Htables.
          by apply Hrows, list_elem_of_further. }
      destruct Hs2 as [Hfiles2 Hrows2].
      apply (IH s2); try done.
      apply (worker_finds_kept cfg s s2); [|done].
      intros path Hp. rewrite Hfiles2. by apply Hkept1.
Qed.

End pass_achieves.

(** X20. After a worker pass that came to its end in a reachable state,
    every job that was pending and found at the start of the pass (a file
    at the path made of its file name, a name with the presentation
    extension) is marked done, whether or not its file opened as a
    presentation. *)
Theorem worker_pass_marks_found_jobs (cfg : Config) (fuel : nat) (w : World)
  (s s' : System) (job : database.Upload) :
  reachable cfg w s →
  explainer.worker_pass cfg fuel w s = Ok s' →
  job ∈ database.uploads (tables s) →
  database.status job = "pending" →
  worker_finds cfg s job = true →
  Py.truthy (document_path cfg job) = true →
  ∃ now, mark_done now job ∈ database.uploads (tables s').
Proof.
  intros Hreach Hrun Hjob Hpending Hfinds Hpath.
  destruct (reachable_ok _ _ _ Hreach) as (Hids & _ & _).
  unfold explainer.worker_pass in Hrun.
  assert (Hin : job ∈ database.uploads_by_status (tables s)
                        status_utils.STATUS_pending).
  { apply list_elem_of_In, List.filter_In. split; [by apply list_elem_of_In|].
    by apply bool_decide_eq_true. }
  destruct (database.uploads_by_status (tables s) status_utils.STATUS_pending)
    as [|u rest] eqn:Hlist; [by apply elem_of_nil in Hin|].
  destruct (explainer.process_pending cfg fuel w (u :: rest) s) as [s1| |]
    eqn:Hpass; simpl in Hrun; [|done..].
  injection Hrun as <-. simpl.
  eapply (process_pending_marks cfg fuel w (u :: rest) s s1 job); try done.
  - rewrite <- Hlist. by apply NoDup_map_filter.
  - intros u' Hu'. rewrite <- Hlist in Hu'.
    apply list_elem_of_In, List.filter_In in Hu' as [Hu' _].
    by apply list_elem_of_In.
Qed.

Lemma worker_pass_marks_found_jobs_witness :
  ∃ now, mark_done now demo.findable_job ∈ database.uploads (tables demo.processed).
Proof.
  apply (worker_pass_marks_found_jobs spec_config 5 demo.world
           demo.findable_upload demo.processed demo.findable_job).
  - apply (steps_reachable spec_config demo.world
             [StartServer; demo.upload_of "a.pptx" "PPTX";
              demo.upload_of "uid0.pptx" "PPTX"] (boot ∅)).
    + apply reachable_boot.
    + vm_compute. reflexivity.
  - vm_compute. reflexivity.
  - vm_compute. apply list_elem_of_further, list_elem_of_here.
  - reflexivity.
  - reflexivity.
  - reflexivity.
Defined.
